(** * The loudness estimator of Jump Cutter (VolumeFilter)

    A shallow embedding of
    [src/entry-points/content/VolumeFilter/VolumeFilterNode.ts]:
    the ring buffer [SingleChannelRingBuffer], the audio-worklet processor
    [VolumeFilterProcessor] and the node wrapper [VolumeFilterNode].

    JavaScript numbers are IEEE 754 binary64 values.  They are modelled by
    [spec_float], the executable specification of IEEE 754 arithmetic of the
    standard library, at precision 53 and maximal exponent 1024.  A
    [Float32Array] holds binary32 values: every store rounds to binary32
    ([Math_fround]).  The length of a typed array and the write cursor are
    integers below 2^51 (a [Float32Array] has at most 2^53 - 1 bytes); they
    are modelled by [Z] (and [nat] for positions in a list).  The index
    arithmetic of [getReverse] is modelled twice: on [Z], and on binary64
    numbers as the engine evaluates it ([getReverse_binary64]); the two
    agree for every integer depth above [_lastSampleI + length - 2^53] and
    below 2^53 ([getReverse_binary64_exact]), which on a [Float32Array]
    includes every depth of magnitude up to 2^52, and differ beyond, where
    the binary64 operations round. *)

From Stdlib Require Import ZArith Lia Bool List String.
From Stdlib Require Import Floats.SpecFloat.
From stdpp Require Import base option list gmap strings.

Local Open Scope Z_scope.

(** ** JavaScript numbers *)

Module Number.

Definition number : Type := spec_float.

Definition prec : Z := 53.
Definition emax : Z := 1024.

Definition NaN : number := S754_nan.
Definition pzero : number := S754_zero false.
Definition pinf : number := S754_infinity false.

(** The number that is nearest to the rational [m * 2^e]. *)
Definition of_scaled (m e : Z) : number := binary_normalize prec emax m e false.

(** The number of an integer literal, or of an array length. *)
Definition of_Z (z : Z) : number := of_scaled z 0.

Definition one : number := of_Z 1.

Definition add : number -> number -> number := SFadd prec emax.
Definition sub : number -> number -> number := SFsub prec emax.
Definition mul : number -> number -> number := SFmul prec emax.
Definition div : number -> number -> number := SFdiv prec emax.

(** [x ** 2].  The exponentiation operator with exponent 2 is taken to be
    the correctly rounded square, as engines compute it. *)
Definition square (x : number) : number := mul x x.

(** Comparisons; every comparison with [NaN] is false. *)
Definition lt (x y : number) : bool := SFltb x y.
Definition le (x y : number) : bool := SFleb x y.
Definition ge (x y : number) : bool := SFleb y x.
Definition strict_eq (x y : number) : bool := SFeqb x y.
Definition strict_ne (x y : number) : bool := negb (SFeqb x y).

Definition is_nan (x : number) : bool :=
  match x with S754_nan => true | _ => false end.

(** [Some z] when the number is the integer [z]; [None] for a fraction, an
    infinity or [NaN]. *)
Definition to_Z (x : number) : option Z :=
  match x with
  | S754_zero _ => Some 0
  | S754_finite s m e =>
      if 0 <=? e then Some (cond_Zopp s (Zpos m * 2 ^ e))
      else if Zpos m mod 2 ^ (- e) =? 0
           then Some (cond_Zopp s (Zpos m / 2 ^ (- e)))
           else None
  | _ => None
  end.

(** [ToNumber] of a value that may be [undefined]. *)
Definition of_value (v : option number) : number :=
  match v with Some x => x | None => NaN end.

(** [Math.max(x, y)]: [NaN] if either is [NaN]; [+0] is larger than [-0]. *)
Definition Math_max (x y : number) : number :=
  match SFcompare x y with
  | None => NaN
  | Some Lt => y
  | Some Gt => x
  | Some Eq => match x with S754_zero true => y | _ => x end
  end.

Definition Math_sqrt : number -> number := SFsqrt prec emax.

(** [Math.round]: the nearest integer, a tie going towards +infinity; an
    integer, an infinity and [NaN] are returned as they are, and a result
    of magnitude zero keeps the sign of the argument. *)
Definition Math_round (x : number) : number :=
  match x with
  | S754_finite s m e =>
      if 0 <=? e then x
      else
        let unit := 2 ^ (- e) in
        let q := Zpos m / unit in
        let r := Zpos m mod unit in
        if r =? 0 then x
        else
          let mag :=
            if s then (if unit <? 2 * r then q + 1 else q)
            else (if unit <=? 2 * r then q + 1 else q) in
          binary_normalize prec emax (cond_Zopp s mag) 0 s
  | _ => x
  end.

(** [Math.fround]: rounding to binary32, the result again a number.  This
    is the conversion of every store into a [Float32Array]. *)
Definition Math_fround (x : number) : number :=
  match x with
  | S754_finite s m e =>
      match binary_round 24 128 s m e with
      | S754_finite s' m' e' => binary_round prec emax s' m' e'
      | y => y
      end
  | _ => x
  end.

(** A number given by a decimal literal [m * 10^(-d)], [0 <= d]: the
    correctly rounded quotient. *)
Definition of_decimal (m : Z) (d : Z) : number := div (of_Z m) (of_Z (10 ^ d)).

(** [Number.isFinite]: a number other than [NaN] and the infinities. *)
Definition isFinite (x : number) : bool :=
  match x with
  | S754_zero _ | S754_finite _ _ _ => true
  | _ => false
  end.

(** [x % y]: the remainder of the division that truncates towards zero.
    It is [NaN] for a [NaN] operand, an infinite dividend or a zero
    divisor, and the dividend for an infinite divisor or a zero dividend.
    Otherwise it is computed on the two mantissas brought to the smaller
    exponent; the result is a number as it is, so the final rounding does
    not change it.  It has the sign of the dividend, also when it is zero. *)
Definition rem (x y : number) : number :=
  match x, y with
  | S754_nan, _ | _, S754_nan => NaN
  | S754_infinity _, _ => NaN
  | _, S754_zero _ => NaN
  | _, S754_infinity _ => x
  | S754_zero _, _ => x
  | S754_finite sx mx ex, S754_finite _ my ey =>
      let e := Z.min ex ey in
      let r := Z.rem (Zpos mx * 2 ^ (ex - e)) (Zpos my * 2 ^ (ey - e)) in
      binary_normalize prec emax (cond_Zopp sx r) e sx
  end.

End Number.
Export Number.


(** ** Completions: a call returns normally or throws *)

Inductive Exception : Type :=
  | RangeError
  | Error (message : string).

Inductive Completion (A : Type) : Type :=
  | Normal (a : A)
  | Throw (e : Exception).
Arguments Normal {A} a.
Arguments Throw {A} e.

Definition throws {A} (c : Completion A) : bool :=
  match c with Throw _ => true | Normal _ => false end.

(** ** Typed arrays

    A [Float32Array] of fixed length: a list of numbers, each of them a
    binary32 value.  A read outside the array gives [undefined] ([None]), a
    write outside the array is ignored, and a write inside stores the
    binary32 rounding of the value. *)

Abbreviation Float32Array := (list number).

Definition new_Float32Array (length : nat) : Float32Array := replicate length pzero.

(** [a[i]] for an integer [i]. *)
Definition typed_get (a : Float32Array) (i : Z) : option number :=
  if 0 <=? i then a !! Z.to_nat i else None.

(** [a[x]] for a number [x]: an element when [x] is an integer inside the
    array ([-0] is the index 0), and [undefined] for every other number. *)
Definition typed_get_number (a : Float32Array) (x : number) : option number :=
  match to_Z x with
  | Some i => typed_get a i
  | None => None
  end.

(** [a[i] = v] for an integer [i]. *)
Definition typed_set (a : Float32Array) (i : Z) (v : number) : Float32Array :=
  if 0 <=? i then <[Z.to_nat i := Math_fround v]> a else a.

(** The [%] operator on integers: the sign of the result is that of the
    dividend, and a zero divisor gives [NaN] ([None]). *)
Definition js_rem (a b : Z) : option Z :=
  if b =? 0 then None else Some (Z.rem a b).

(** ** SingleChannelRingBuffer *)

Record SingleChannelRingBuffer : Type := {
  elements : Float32Array;
  _lastSampleI : Z
}.

Definition rb_length (b : SingleChannelRingBuffer) : Z :=
  Z.of_nat (length (elements b)).

(** [constructor(length)] for a length that is a natural number, the
    typed array being created: zeros, and the cursor on the last slot. *)
Definition new_SingleChannelRingBuffer (length : nat) : SingleChannelRingBuffer :=
  {| elements := new_Float32Array length;
     _lastSampleI := Z.of_nat length - 1 |}.

(** [push(val)] *)
Definition push (val : number) (b : SingleChannelRingBuffer) : SingleChannelRingBuffer :=
  let i := _lastSampleI b + 1 in
  let i := if rb_length b <=? i then 0 else i in
  {| elements := typed_set (elements b) i val;
     _lastSampleI := i |}.

Section DevMode.

(** The build-time constant [IS_DEV_MODE]. *)
Variable IS_DEV_MODE : bool.

(** [getReverse(depth)] at an integer depth, the index computed on
    integers.  The value is [None] when the read gives [undefined].  This is
    what the code computes as long as its binary64 operations are exact: on
    a buffer of fewer than 2^53 slots, for every depth above
    [_lastSampleI + length - 2^53] and below 2^53
    ([getReverse_binary64_exact]). *)
Definition getReverse (depth : Z) (b : SingleChannelRingBuffer)
  : Completion (option number) :=
  if IS_DEV_MODE && (rb_length b <=? depth) then Throw RangeError
  else
    Normal (match js_rem (_lastSampleI b - depth + rb_length b) (rb_length b) with
            | Some i => typed_get (elements b) i
            | None => None
            end).

(** [getReverse(depth)] at a depth that is any number, as [process] calls
    it.  A depth that is not an integer ([NaN], an infinity, a fraction)
    makes the index expression a non-index, and the read gives [undefined];
    an integer depth is handed to [getReverse], with the range of exactness
    stated there. *)
Definition getReverse_number (depth : number) (b : SingleChannelRingBuffer)
  : Completion (option number) :=
  match to_Z depth with
  | Some d => getReverse d b
  | None =>
      if IS_DEV_MODE && Number.ge depth (of_Z (rb_length b)) then Throw RangeError
      else Normal None
  end.

(** [getReverse(depth)] as the engine evaluates it: the comparison, the
    subtraction, the addition and [%] are operations on binary64 numbers,
    and the result of [%] is the property that is read. *)
Definition getReverse_binary64 (depth : number) (b : SingleChannelRingBuffer)
  : Completion (option number) :=
  let length := of_Z (rb_length b) in
  if IS_DEV_MODE && Number.ge depth length then Throw RangeError
  else
    Normal (typed_get_number (elements b)
              (rem (add (sub (of_Z (_lastSampleI b)) depth) length) length)).

End DevMode.

(** ** VolumeFilterProcessor *)

Definition SAMPLES_PER_QUANTUM : nat := 128.
Definition DEFAULT_MAX_NUM_CHANNELS : number := of_Z 32.

(** The [processorOptions] bag: the keys the processor looks at, each of
    them possibly absent. *)
Record ProcessorOptions : Type := {
  po_maxChannels : option number;
  po_maxSmoothingWindowLength : option number
}.

(** The options a processor is constructed with. *)
Record WorkletOptions : Type := {
  parameterData_smoothingWindowLength : number;
  processorOptions : option ProcessorOptions
}.

(** The field [_options] of a processor. *)
Record Options : Type := {
  maxChannels : number;
  maxSmoothingWindowLength : number
}.

(** [keepAlive] is inherited from [WorkaroundAudioWorkletProcessor], which
    is not part of the modelled file: the flag is a field that [process]
    only reads. *)
Record VolumeFilterProcessor : Type := {
  _sampleSquaresRingBuffer : SingleChannelRingBuffer;
  _currWindowSquaresSum : number;
  _options : Options;
  keepAlive : bool
}.

(** The module-level state: the flag [devErrorShown] and what has been
    written with [console.error] (the two numbers of each call). *)
Record Global : Type := {
  devErrorShown : bool;
  console : list (number * number)
}.

Definition initial_Global : Global := {| devErrorShown := false; console := [] |}.

(** The [parameters] record of a [process] call. *)
Record Parameters : Type := {
  smoothingWindowLength : Float32Array
}.

(** [ToIndex], the first step of [new Float32Array(length)]: [NaN] is 0, a
    fraction is truncated, and an integer outside [0, 2^53 - 1] is a
    [RangeError]. *)
Definition ToIndex (x : number) : Completion nat :=
  match x with
  | S754_nan | S754_zero _ => Normal 0%nat
  | S754_infinity _ => Throw RangeError
  | S754_finite s m e =>
      let mag := if 0 <=? e then Zpos m * 2 ^ e else Zpos m / 2 ^ (- e) in
      if mag =? 0 then Normal 0%nat
      else if s || (2 ^ 53 <=? mag) then Throw RangeError
      else Normal (Z.to_nat mag)
  end.

(** [new Float32Array(length)] for a length that is any number.  After
    [ToIndex], the buffer of 4 bytes for each element is created, which is a
    [RangeError] when the byte length exceeds 2^53 - 1 and when the host
    cannot allocate the buffer.  [allocates n] says whether the host
    allocates the buffer of an array of [n] elements. *)
Definition construct_Float32Array (allocates : nat -> bool) (length : number)
  : Completion Float32Array :=
  match ToIndex length with
  | Throw e => Throw e
  | Normal n =>
      if (4 * Z.of_nat n <=? 2 ^ 53 - 1) && allocates n
      then Normal (new_Float32Array n)
      else Throw RangeError
  end.

(** [new SingleChannelRingBuffer(length)] for a length that is any number:
    [super(length)], then [_lastSampleI = length - 1].  For a length that is
    an integer, the cursor is one less than the number of elements.  The
    length the processor passes is a result of [Math.round]: an integer or
    [NaN] (an infinity does not get past [ToIndex]).  For [NaN] the array is
    empty and the code leaves the cursor [NaN]; the cursor of the model is
    an integer, and -1 stands for it: a buffer without slots ignores every
    write and reads [undefined] at every depth, whatever its cursor is
    ([empty_ring_ignores_cursor]). *)
Definition construct_SingleChannelRingBuffer (allocates : nat -> bool) (length : number)
  : Completion SingleChannelRingBuffer :=
  match construct_Float32Array allocates length with
  | Throw e => Throw e
  | Normal a =>
      Normal {| elements := a; _lastSampleI := Z.of_nat (List.length a) - 1 |}
  end.

(** A host that allocates typed arrays of up to [limit] elements. *)
Definition host_with_limit (limit : Z) : nat -> bool :=
  fun n => Z.of_nat n <=? limit.

Section Processor.

Variable IS_DEV_MODE : bool.

(** The global [sampleRate] of the audio worklet scope. *)
Variable sampleRate : number.

(** The host's allocator of typed arrays. *)
Variable allocates : nat -> bool.

Definition windowLengthNumSecondsToSamples (numSeconds : number) : number :=
  Math_round (mul numSeconds sampleRate).

(** [constructor(options)]; [keepAlive0] is the flag the base class
    starts with. *)
Definition new_VolumeFilterProcessor (options : WorkletOptions) (keepAlive0 : bool)
  : Completion VolumeFilterProcessor :=
  let po := processorOptions options in
  let opts :=
    {| maxChannels :=
         default DEFAULT_MAX_NUM_CHANNELS (po ≫= po_maxChannels);
       maxSmoothingWindowLength :=
         default (parameterData_smoothingWindowLength options)
                 (po ≫= po_maxSmoothingWindowLength) |} in
  let bufferLength := windowLengthNumSecondsToSamples (maxSmoothingWindowLength opts) in
  match construct_SingleChannelRingBuffer allocates bufferLength with
  | Throw e => Throw e
  | Normal ring =>
      Normal {| _sampleSquaresRingBuffer := ring;
                _currWindowSquaresSum := of_Z 0;
                _options := opts;
                keepAlive := keepAlive0 |}
  end.

(** The state the sample loop of [process] works on. *)
Record LoopState : Type := {
  ls_ring : SingleChannelRingBuffer;
  ls_sum : number;
  ls_output : Float32Array
}.

(** The inner loop over the channels: the sum of [sample ** 2]. *)
Definition allChannelsSampleSquareSum (input : list Float32Array) (sampleI : nat) : number :=
  foldl (fun acc channel => add acc (square (of_value (channel !! sampleI))))
        (of_Z 0) input.

(** One iteration of the loop over the samples. *)
Definition process_sample (input : list Float32Array)
           (smoothingWindowLengthSamples : number)
           (sampleI : nat) (st : LoopState) : Completion LoopState :=
  let numChannels := of_Z (Z.of_nat (length input)) in
  let allChannelsSampleMeanSquare :=
    div (allChannelsSampleSquareSum input sampleI) numChannels in
  match getReverse_number IS_DEV_MODE (sub smoothingWindowLengthSamples (of_Z 1)) (ls_ring st) with
  | Throw e => Throw e
  | Normal lastWindowSampleSquare =>
      let sum := sub (ls_sum st) (of_value lastWindowSampleSquare) in
      let sum := add sum allChannelsSampleMeanSquare in
      let sum := Math_max sum (of_Z 0) in
      let ring := push allChannelsSampleMeanSquare (ls_ring st) in
      let currVolume := Math_sqrt (div sum smoothingWindowLengthSamples) in
      Normal {| ls_ring := ring;
                ls_sum := sum;
                ls_output := typed_set (ls_output st) (Z.of_nat sampleI) currVolume |}
  end.

(** The loop over the samples.  A throw leaves the state as the
    iterations before it made it. *)
Fixpoint process_samples (input : list Float32Array)
         (smoothingWindowLengthSamples : number)
         (sampleIs : list nat) (st : LoopState) : LoopState * Completion unit :=
  match sampleIs with
  | [] => (st, Normal tt)
  | sampleI :: rest =>
      match process_sample input smoothingWindowLengthSamples sampleI st with
      | Throw e => (st, Throw e)
      | Normal st' => process_samples input smoothingWindowLengthSamples rest st'
      end
  end.

(** What a call of [process] leaves behind: the module state, the
    processor, the output channel, and how the call completed. *)
Record ProcessResult : Type := {
  res_global : Global;
  res_processor : VolumeFilterProcessor;
  res_outputChannel : Float32Array;
  res_completion : Completion bool
}.

(** The development-mode diagnostic at the start of [process]. *)
Definition dev_check (g : Global) (p : VolumeFilterProcessor)
           (swl swlSamples : number) : Global :=
  if IS_DEV_MODE
     && (strict_ne swlSamples
           (windowLengthNumSecondsToSamples (maxSmoothingWindowLength (_options p)))
         && negb (devErrorShown g))
  then {| devErrorShown := true;
          console := console g ++ [(swl, maxSmoothingWindowLength (_options p))] |}
  else g.

(** [process(inputs, outputs, parameters)], with [input = inputs[0]] and
    [outputChannel = outputs[0][0]]. *)
Definition process (g : Global) (p : VolumeFilterProcessor)
           (input : list Float32Array) (outputChannel : Float32Array)
           (parameters : Parameters) : ProcessResult :=
  let swl := of_value (typed_get (smoothingWindowLength parameters) 0) in
  let smoothingWindowLengthSamples := windowLengthNumSecondsToSamples swl in
  let g := dev_check g p swl smoothingWindowLengthSamples in
  match input with
  | [] =>
      {| res_global := g; res_processor := p;
         res_outputChannel := outputChannel;
         res_completion := Normal (keepAlive p) |}
  | channel0 :: _ =>
      let numSamples := length channel0 in
      if IS_DEV_MODE && negb (numSamples =? SAMPLES_PER_QUANTUM)%nat
      then {| res_global := g; res_processor := p;
              res_outputChannel := outputChannel;
              res_completion :=
                Throw (Error "Splish-splash. Your assumptions about quantum length are trash") |}
      else
        let '(st, c) :=
          process_samples input smoothingWindowLengthSamples (seq 0 numSamples)
            {| ls_ring := _sampleSquaresRingBuffer p;
               ls_sum := _currWindowSquaresSum p;
               ls_output := outputChannel |} in
        {| res_global := g;
           res_processor :=
             {| _sampleSquaresRingBuffer := ls_ring st;
                _currWindowSquaresSum := ls_sum st;
                _options := _options p;
                keepAlive := keepAlive p |};
           res_outputChannel := ls_output st;
           res_completion :=
             match c with
             | Throw e => Throw e
             | Normal _ => Normal (keepAlive p)
             end |}
  end.

End Processor.

(** ** VolumeFilterNode

    [new VolumeFilterNode(context, maxSmoothingWindowLength,
    smoothingWindowLength)] hands the options built here to the processor
    constructor; [processorOptions] is not among them. *)
Definition VolumeFilterNode_options (maxSmoothingWindowLength smoothingWindowLength : number)
  : WorkletOptions :=
  {| parameterData_smoothingWindowLength := smoothingWindowLength;
     processorOptions := None |}.

Definition new_VolumeFilterNode (sampleRate : number) (allocates : nat -> bool)
           (maxSmoothingWindowLength smoothingWindowLength : number) (keepAlive0 : bool)
  : Completion VolumeFilterProcessor :=
  new_VolumeFilterProcessor sampleRate allocates
    (VolumeFilterNode_options maxSmoothingWindowLength smoothingWindowLength) keepAlive0.

(** ** Derived notions used in the statements *)

(** Pushing a sequence of values, the first of the list first. *)
Definition push_all (vals : list number) (b : SingleChannelRingBuffer)
  : SingleChannelRingBuffer :=
  foldl (fun b val => push val b) b vals.

(** The write cursor points into the array.  Every buffer of positive
    length made by the constructor and [push] is in this state
    ([rb_valid_push_all]). *)
Definition rb_valid (b : SingleChannelRingBuffer) : Prop :=
  0 <= _lastSampleI b < rb_length b.

(** The index [getReverse] reads at, for a depth that keeps the dividend
    of [%] from being negative. *)
Definition slot_of (b : SingleChannelRingBuffer) (depth : Z) : Z :=
  (_lastSampleI b - depth + rb_length b) mod rb_length b.

(** The content of a ring buffer as the sequence of its values from the
    most recently pushed one back to the oldest. *)
Definition window (b : SingleChannelRingBuffer) : list number :=
  (fun d => of_value (typed_get (elements b) (slot_of b (Z.of_nat d))))
    <$> seq 0 (length (elements b)).

(** A number is never negative when it is [NaN] or at least zero; [-0]
    counts as zero, as for [>=]. *)
Definition not_negative (x : number) : bool := is_nan x || Number.ge x pzero.

(** The sign a rounding leaves: that of its argument, unless the result is
    [NaN]. *)
Definition has_sign (s : bool) (x : number) : Prop :=
  match x with
  | S754_zero s' | S754_infinity s' | S754_finite s' _ _ => s' = s
  | S754_nan => True
  end.

(** Every slot of the new array is as before, or holds a number that is
    never negative. *)
Definition written_not_negative (old new : Float32Array) : Prop :=
  forall (j : nat) (v : number),
    new !! j = Some v -> old !! j = Some v \/ not_negative v = true.

(** The mean square of the samples at one index of a block, as the sample
    loop of [process] computes it. *)
Definition allChannelsSampleMeanSquare (input : list Float32Array) (sampleI : nat)
  : number :=
  div (allChannelsSampleSquareSum input sampleI) (of_Z (Z.of_nat (length input))).

(** A block whose mean squares are all finite binary32 values: the ring
    buffer stores them as they are or rounded, and never as [NaN] or
    [Infinity].  A block with a [NaN] sample, an infinite sample or a
    channel that is too short is not of this kind. *)
Definition finite_mean_squares (input : list Float32Array) : bool :=
  forallb (fun sampleI => isFinite (Math_fround (allChannelsSampleMeanSquare input sampleI)))
          (seq 0 (length (default [] (head input)))).

(** Strictly increasing sequences of numbers, by the comparison [<]. *)
Fixpoint strictly_increasing (l : list number) : bool :=
  match l with
  | x :: (y :: _) as rest => Number.lt x y && strictly_increasing rest
  | _ => true
  end.

(** Once something has been logged, the flag is set, and nothing is
    logged twice. *)
Definition logged_once (g : Global) : Prop :=
  (devErrorShown g = false -> console g = []) /\ (length (console g) <= 1)%nat.

(** Several processors live in one audio worklet scope and share the module
    state.  A call names the processor it is made on. *)
Record Call : Type := {
  call_processor : nat;
  call_input : list Float32Array;
  call_outputChannel : Float32Array;
  call_parameters : Parameters
}.

Section Scope.

Variable IS_DEV_MODE : bool.
Variable sampleRate : number.

(** One call: the processor is looked up, [process] runs on it, and the
    module state and the processor are updated.  A call on a processor
    that does not exist does nothing. *)
Definition run_call (w : Global * list VolumeFilterProcessor) (c : Call)
  : Global * list VolumeFilterProcessor :=
  match w.2 !! call_processor c with
  | None => w
  | Some p =>
      let r := process IS_DEV_MODE sampleRate w.1 p
                 (call_input c) (call_outputChannel c) (call_parameters c) in
      (res_global r, <[call_processor c := res_processor r]> w.2)
  end.

Definition run_calls (w : Global * list VolumeFilterProcessor) (calls : list Call)
  : Global * list VolumeFilterProcessor :=
  foldl run_call w calls.

End Scope.

(** The processor of scenario A: constructed at 48 kHz for a window of
    0.02 s, which is 960 samples. *)
Definition scenario_A_processor : VolumeFilterProcessor :=
  {| _sampleSquaresRingBuffer := new_SingleChannelRingBuffer 960;
     _currWindowSquaresSum := pzero;
     _options := {| maxChannels := DEFAULT_MAX_NUM_CHANNELS;
                    maxSmoothingWindowLength := of_decimal 2 2 |};
     keepAlive := true |}.

(** ** The sliding window, without the ring

    The sample loop of [process] written over the window itself: the
    sequence of the last mean squares, the most recent first.  It is the
    reference the ring buffer implementation is compared with. *)

Record WindowState : Type := {
  ws_window : list number;
  ws_sum : number;
  ws_output : Float32Array
}.

Definition window_sample (input : list Float32Array)
           (smoothingWindowLengthSamples : number) (depth : nat)
           (sampleI : nat) (st : WindowState) : WindowState :=
  let numChannels := of_Z (Z.of_nat (length input)) in
  let meanSquare := div (allChannelsSampleSquareSum input sampleI) numChannels in
  let sum := sub (ws_sum st) (of_value (ws_window st !! depth)) in
  let sum := add sum meanSquare in
  let sum := Math_max sum (of_Z 0) in
  {| ws_window :=
       Math_fround meanSquare :: take (length (ws_window st) - 1) (ws_window st);
     ws_sum := sum;
     ws_output :=
       typed_set (ws_output st) (Z.of_nat sampleI)
                 (Math_sqrt (div sum smoothingWindowLengthSamples)) |}.

(** What a state of the loop over the ring is in terms of the window. *)
Definition window_state (ring : SingleChannelRingBuffer) (sum : number)
           (output : Float32Array) : WindowState :=
  {| ws_window := window ring; ws_sum := sum; ws_output := output |}.

Definition window_samples (input : list Float32Array)
           (smoothingWindowLengthSamples : number) (depth : nat)
           (sampleIs : list nat) (st : WindowState) : WindowState :=
  foldl (fun st sampleI => window_sample input smoothingWindowLengthSamples depth sampleI st)
        st sampleIs.

(** The number of binary digits of a positive integer. *)
Definition digits (m : positive) : Z := Zpos (digits2_pos m).

(** The 53-bit mantissa of a positive integer below 2^53. *)
Definition int_mantissa (z : positive) : positive :=
  Z.to_pos (Zpos z * 2 ^ (53 - digits z)).

(** The state of the window in the steady state of a unit signal with a
    window of [n] samples: the running sum is [n] and the last [n] values
    are 1.0. *)
Definition steady (n : Z) (st : WindowState) : Prop :=
  ws_sum st = of_Z n
  /\ (Z.to_nat (n - 1) < length (ws_window st))%nat
  /\ forall d : nat, (d <= Z.to_nat (n - 1))%nat -> ws_window st !! d = Some one.

(** The processor of scenario B: a window of 960 samples at 48 kHz, warmed
    with the constant 1.0. *)
Definition scenario_B_processor : VolumeFilterProcessor :=
  {| _sampleSquaresRingBuffer :=
       {| elements := replicate 960 one; _lastSampleI := 63 |};
     _currWindowSquaresSum := of_Z 960;
     _options := {| maxChannels := DEFAULT_MAX_NUM_CHANNELS;
                    maxSmoothingWindowLength := of_decimal 2 2 |};
     keepAlive := true |}.

(** Feeding a processor the same block several times. *)
Definition process_repeatedly (dev : bool) (sampleRate : number)
           (input : list Float32Array) (parameters : Parameters) (times : nat)
           (p : VolumeFilterProcessor) : VolumeFilterProcessor :=
  Nat.iter times
    (fun p => res_processor
                (process dev sampleRate initial_Global p input
                   (new_Float32Array (length (default [] (head input)))) parameters))
    p.

(** ** Notions used in the further properties *)

(** A number that is [+0] or [-0]. *)
Definition is_zero (x : number) : Prop := exists s, x = S754_zero s.

(** A block of silence: every channel holds a zero at every index below
    [N]. *)
Definition silent_block (input : list Float32Array) (N : nat) : Prop :=
  forall channel : Float32Array, channel ∈ input ->
    forall i : nat, (i < N)%nat -> exists x, channel !! i = Some x /\ is_zero x.

(** The state of the window in silence: the running sum is [+0] and the last
    [n] values are zeros. *)
Definition silent (n : Z) (st : WindowState) : Prop :=
  ws_sum st = pzero
  /\ (Z.to_nat (n - 1) < length (ws_window st))%nat
  /\ forall d : nat, (d <= Z.to_nat (n - 1))%nat ->
       exists x, ws_window st !! d = Some x /\ is_zero x.

(** A processor whose ring buffer has exactly the [n] slots of its window:
    the state the constructor leaves and [process] keeps. *)
Definition ready (sampleRate : number) (n : Z) (p : VolumeFilterProcessor) : Prop :=
  rb_valid (_sampleSquaresRingBuffer p)
  /\ rb_length (_sampleSquaresRingBuffer p) = n
  /\ windowLengthNumSecondsToSamples sampleRate (maxSmoothingWindowLength (_options p))
     = of_Z n.

(** ** Listeners of setting changes

    [src/popup/hotkeys.ts], [addOnChangedListener] and
    [removeOnChangedListener]: the wrappers around
    [chrome.storage.onChanged]. *)

(** The value of a setting. *)
Inductive Value : Type :=
  | VNumber (x : number)
  | VBoolean (b : bool).

(** A function is known by its identity.  The listeners of the callers are
    numbered; a wrapper made by [addOnChangedListener] is a new closure,
    known by a number of its own, that holds the listener it forwards to.
    The event keeps the registered callbacks in the order they were added. *)

Abbreviation MyStorageChanges := (gmap string (option Value * option Value)).

Record Wrapper : Type := {
  w_id : nat;
  w_listener : nat
}.

Record ListenerState : Type := {
  srcListenerToWrapperListener : gmap nat Wrapper;
  onChanged : list Wrapper;
  nextWrapper : nat;
  warnings : nat
}.

Definition initial_ListenerState : ListenerState :=
  {| srcListenerToWrapperListener := ∅; onChanged := []; nextWrapper := 0; warnings := 0 |}.

(** [chrome.storage.onChanged.removeListener(w)] *)
Definition removeListener (w : Wrapper) (registered : list Wrapper) : list Wrapper :=
  filter (fun w' => w_id w' <> w_id w) registered.

(** [addOnChangedListener(listener)] *)
Definition addOnChangedListener (listener : nat) (st : ListenerState) : ListenerState :=
  let actualListener := {| w_id := nextWrapper st; w_listener := listener |} in
  {| srcListenerToWrapperListener :=
       <[listener := actualListener]> (srcListenerToWrapperListener st);
     onChanged := onChanged st ++ [actualListener];
     nextWrapper := S (nextWrapper st);
     warnings := warnings st |}.

(** [removeOnChangedListener(listener)]; [production] says whether
    [process.env.NODE_ENV] is ['production']. *)
Definition removeOnChangedListener (production : bool) (listener : nat)
           (st : ListenerState) : ListenerState :=
  match srcListenerToWrapperListener st !! listener with
  | None =>
      {| srcListenerToWrapperListener := srcListenerToWrapperListener st;
         onChanged := onChanged st;
         nextWrapper := nextWrapper st;
         warnings := if production then warnings st else S (warnings st) |}
  | Some actualListener =>
      {| srcListenerToWrapperListener := srcListenerToWrapperListener st;
         onChanged := removeListener actualListener (onChanged st);
         nextWrapper := nextWrapper st;
         warnings := warnings st |}
  end.

(** What a wrapper does with an event: the calls of listeners it makes. *)
Definition call_wrapper (changes : MyStorageChanges) (areaName : string) (w : Wrapper)
  : list (nat * MyStorageChanges) :=
  if String.eqb areaName "local" then [(w_listener w, changes)] else [].

(** The event fires: every registered callback is called, in order. *)
Definition fire (changes : MyStorageChanges) (areaName : string) (st : ListenerState)
  : list (nat * MyStorageChanges) :=
  onChanged st ≫= call_wrapper changes areaName.

(** The operations a caller can make. *)
Inductive ListenerOp : Type :=
  | OpAdd (listener : nat)
  | OpRemove (listener : nat).

Definition run_op (production : bool) (st : ListenerState) (op : ListenerOp)
  : ListenerState :=
  match op with
  | OpAdd l => addOnChangedListener l st
  | OpRemove l => removeOnChangedListener production l st
  end.

Definition run_ops (production : bool) (ops : list ListenerOp) : ListenerState :=
  foldl (run_op production) initial_ListenerState ops.

(** The wrappers are distinct: the registered ones differ from each other
    and are older than the next one, and so is everything in the map. *)
Definition wrappers_fresh (st : ListenerState) : Prop :=
  NoDup (w_id <$> onChanged st)
  /\ (forall w, w ∈ onChanged st -> (w_id w < nextWrapper st)%nat)
  /\ (forall l w, srcListenerToWrapperListener st !! l = Some w ->
                  (w_id w < nextWrapper st)%nat /\ w_listener w = l).

(** How many registered wrappers forward to a listener. *)
Definition attached (listener : nat) (st : ListenerState) : nat :=
  length (filter (fun w => w_listener w = listener) (onChanged st)).

(** * Properties *)

(** ** The ring buffer *)

Section RingBufferFacts.

Implicit Types (b : SingleChannelRingBuffer) (a : Float32Array) (v : number).

Lemma length_new_Float32Array n : length (new_Float32Array n) = n.
Proof. apply length_replicate. Qed.

Lemma length_typed_set a i v : length (typed_set a i v) = length a.
Proof. unfold typed_set. destruct (0 <=? i); [apply length_insert | done]. Qed.

Lemma rb_length_new n : rb_length (new_SingleChannelRingBuffer n) = Z.of_nat n.
Proof. unfold rb_length. simpl. by rewrite length_new_Float32Array. Qed.

Lemma rb_length_push v b : rb_length (push v b) = rb_length b.
Proof. unfold rb_length, push. simpl. by rewrite length_typed_set. Qed.

Lemma rb_length_push_all vals b : rb_length (push_all vals b) = rb_length b.
Proof.
  revert b. induction vals as [|v vals IH]; intros b; [done|].
  simpl. rewrite IH. apply rb_length_push.
Qed.

Lemma rb_valid_new n : (0 < n)%nat -> rb_valid (new_SingleChannelRingBuffer n).
Proof. intros Hn. unfold rb_valid. rewrite rb_length_new. simpl. lia. Qed.

(** The cursor after a push: one further, or back at 0. *)
Lemma lastSampleI_push v b :
  rb_valid b ->
  _lastSampleI (push v b) = (_lastSampleI b + 1) mod rb_length b.
Proof.
  intros [Hlo Hhi]. unfold push. simpl.
  destruct (Z.leb_spec (rb_length b) (_lastSampleI b + 1)).
  - replace (_lastSampleI b + 1) with (rb_length b) by lia.
    by rewrite Z.mod_same by lia.
  - by rewrite Z.mod_small by lia.
Qed.

Lemma rb_valid_push v b : rb_valid b -> rb_valid (push v b).
Proof.
  intros Hb. unfold rb_valid. rewrite rb_length_push, lastSampleI_push by done.
  destruct Hb. apply Z.mod_pos_bound. lia.
Qed.

Lemma rb_valid_push_all vals b : rb_valid b -> rb_valid (push_all vals b).
Proof.
  revert b. induction vals as [|v vals IH]; intros b Hb; [done|].
  simpl. apply IH, rb_valid_push, Hb.
Qed.

Lemma elements_push v b :
  rb_valid b ->
  elements (push v b)
  = <[Z.to_nat (_lastSampleI (push v b)) := Math_fround v]> (elements b).
Proof.
  intros Hb. pose proof (rb_valid_push v b Hb) as [Hlo _].
  unfold push in *. simpl in *. unfold typed_set.
  by destruct (Z.leb_spec 0 (if rb_length b <=? _lastSampleI b + 1
                              then 0 else _lastSampleI b + 1)); [|lia].
Qed.

Lemma slot_of_range b depth : 0 < rb_length b -> 0 <= slot_of b depth < rb_length b.
Proof. intros Hk. apply Z.mod_pos_bound, Hk. Qed.

Lemma getReverse_slot dev b depth :
  rb_valid b -> depth < rb_length b ->
  getReverse dev depth b = Normal (typed_get (elements b) (slot_of b depth)).
Proof.
  intros [Hlo Hhi] Hd. unfold getReverse, js_rem, slot_of.
  destruct (Z.leb_spec (rb_length b) depth); [lia|].
  rewrite andb_false_r.
  destruct (Z.eqb_spec (rb_length b) 0); [lia|].
  by rewrite Z.rem_mod_nonneg by lia.
Qed.

Lemma slot_of_push_0 v b : rb_valid b -> slot_of (push v b) 0 = _lastSampleI (push v b).
Proof.
  intros Hb. pose proof (rb_valid_push v b Hb) as [Hlo Hhi].
  unfold slot_of. rewrite Z.sub_0_r.
  rewrite <- (Z.mul_1_l (rb_length (push v b))) at 1.
  rewrite Z.mod_add by lia. apply Z.mod_small. lia.
Qed.

Lemma slot_of_push_succ v b depth :
  rb_valid b -> slot_of (push v b) (depth + 1) = slot_of b depth.
Proof.
  intros Hb. unfold slot_of.
  rewrite rb_length_push, lastSampleI_push by done.
  destruct Hb as [Hlo Hhi].
  rewrite <- Zplus_mod_idemp_l, <- Zminus_mod_idemp_l, Z.mod_mod by lia.
  rewrite Zminus_mod_idemp_l, Zplus_mod_idemp_l.
  f_equal. lia.
Qed.

Lemma slot_of_push_ne v b depth :
  rb_valid b -> 0 < depth < rb_length b ->
  slot_of (push v b) depth <> _lastSampleI (push v b).
Proof.
  intros Hb Hd. rewrite <- (slot_of_push_0 v b Hb).
  pose proof (rb_valid_push v b Hb) as [Hlo Hhi].
  unfold slot_of. rewrite Z.sub_0_r.
  set (c := _lastSampleI (push v b)) in *.
  set (k := rb_length (push v b)) in *.
  assert (Hk : k = rb_length b) by apply rb_length_push.
  intros Heq.
  assert (Hc : (c + k) mod k = c).
  { rewrite <- (Z.mul_1_l k) at 1. rewrite Z.mod_add by lia. apply Z.mod_small; lia. }
  rewrite Hc in Heq.
  destruct (Z.lt_ge_cases (c - depth) 0).
  - replace (c - depth + k) with (c - depth + k + 0 * k) in Heq by lia.
    rewrite Z.mod_add, Z.mod_small in Heq by lia. lia.
  - rewrite <- (Z.mul_1_l k) in Heq at 1.
    rewrite Z.mod_add, Z.mod_small in Heq by lia. lia.
Qed.

(** What [getReverse] sees after a push: the value just pushed, rounded
    to binary32, at depth 0, and below it what was there before. *)
Lemma getReverse_push_0 dev v b :
  rb_valid b ->
  getReverse dev 0 (push v b) = Normal (Some (Math_fround v)).
Proof.
  intros Hb. pose proof (rb_valid_push v b Hb) as Hb'.
  rewrite getReverse_slot by (done || (destruct Hb'; lia)).
  rewrite slot_of_push_0, elements_push by done.
  unfold typed_get. destruct Hb' as [Hlo Hhi].
  destruct (Z.leb_spec 0 (_lastSampleI (push v b))); [|lia].
  rewrite list_lookup_insert_eq; [done|].
  rewrite rb_length_push in Hhi. unfold rb_length in Hhi. lia.
Qed.

Lemma getReverse_push_succ dev v b depth :
  rb_valid b -> 0 <= depth -> depth + 1 < rb_length b ->
  getReverse dev (depth + 1) (push v b) = getReverse dev depth b.
Proof.
  intros Hb Hd0 Hd. pose proof (rb_valid_push v b Hb) as Hb'.
  rewrite !getReverse_slot by (done || rewrite ?rb_length_push; lia).
  f_equal.
  pose proof (slot_of_push_ne v b (depth + 1) Hb ltac:(lia)) as Hne.
  rewrite slot_of_push_succ in * by done.
  rewrite elements_push by done.
  pose proof (slot_of_range b depth ltac:(lia)) as [Hs _].
  destruct Hb' as [Hlo' _].
  unfold typed_get. destruct (Z.leb_spec 0 (slot_of b depth)); [|lia].
  apply list_lookup_insert_ne. lia.
Qed.

End RingBufferFacts.

Section RingBufferContents.

Implicit Types (b : SingleChannelRingBuffer) (v : number).

Lemma push_all_snoc vals v b : push_all (vals ++ [v]) b = push v (push_all vals b).
Proof. unfold push_all. by rewrite foldl_snoc. Qed.

(** After pushing [vals], the value at depth [d] is the [d]-th of the
    pushed values counted from the last, rounded to binary32. *)
Lemma getReverse_push_all dev vals b (d : nat) :
  rb_valid b -> (length vals <= length (elements b))%nat -> (d < length vals)%nat ->
  getReverse dev (Z.of_nat d) (push_all vals b)
  = Normal (Math_fround <$> reverse vals !! d).
Proof.
  intros Hb. revert d.
  induction vals as [|v vals IH] using rev_ind; intros d Hlen Hd; [simpl in Hd; lia|].
  rewrite length_app in Hlen, Hd. simpl in Hlen, Hd.
  rewrite push_all_snoc, reverse_snoc.
  pose proof (rb_valid_push_all vals b Hb) as Hvalid.
  destruct d as [|d].
  - by rewrite getReverse_push_0.
  - replace (Z.of_nat (S d)) with (Z.of_nat d + 1) by lia.
    rewrite getReverse_push_succ; [apply IH; lia | done | lia |].
    rewrite rb_length_push_all. unfold rb_length. lia.
Qed.

End RingBufferContents.

(** C9 (as amended).  In a ring buffer of capacity [k > 0] made by the
    constructor and any pushes, [push v] moves the cursor one slot further
    (back to 0 after the last slot), stores the binary32 rounding of [v]
    ([v] itself when it is a binary32 value) in exactly that slot and leaves
    every other slot as it was; the cursor is in [0, k) after the push.  Right after construction the cursor is
    [k - 1], and the first push writes slot 0. *)
Theorem push_writes_one_slot (k : nat) (vals : list number) (v : number) :
  (0 < k)%nat ->
  let b := push_all vals (new_SingleChannelRingBuffer k) in
  let b' := push v b in
  let i := Z.to_nat (_lastSampleI b') in
  0 <= _lastSampleI b' < Z.of_nat k
  /\ _lastSampleI b' = (_lastSampleI b + 1) mod Z.of_nat k
  /\ length (elements b') = k
  /\ elements b' !! i = Some (Math_fround v)
  /\ (Math_fround v = v -> elements b' !! i = Some v)
  /\ (forall j : nat, j <> i -> elements b' !! j = elements b !! j)
  /\ _lastSampleI (new_SingleChannelRingBuffer k) = Z.of_nat k - 1
  /\ _lastSampleI (push v (new_SingleChannelRingBuffer k)) = 0.
Proof.
  intros Hk b b' i.
  assert (Hb : rb_valid b) by (apply rb_valid_push_all, rb_valid_new, Hk).
  assert (Hlen : rb_length b = Z.of_nat k).
  { unfold b. by rewrite rb_length_push_all, rb_length_new. }
  pose proof (rb_valid_push v b Hb) as Hb'. fold b' in Hb'.
  assert (Hlen' : rb_length b' = Z.of_nat k) by (unfold b'; by rewrite rb_length_push).
  unfold rb_valid in Hb'. rewrite Hlen' in Hb'.
  assert (He : elements b' = <[i := Math_fround v]> (elements b))
    by (apply elements_push, Hb).
  repeat split; try lia.
  - unfold b'. by rewrite lastSampleI_push, Hlen.
  - unfold rb_length in Hlen'. lia.
  - rewrite He. apply list_lookup_insert_eq.
    unfold rb_length in Hlen. unfold i. lia.
  - intros <-. rewrite He. apply list_lookup_insert_eq.
    unfold rb_length in Hlen. unfold i. lia.
  - intros j Hj. rewrite He. by apply list_lookup_insert_ne.
  - rewrite lastSampleI_push by (apply rb_valid_new, Hk).
    rewrite rb_length_new. simpl.
    replace (Z.of_nat k - 1 + 1) with (Z.of_nat k) by lia.
    apply Z.mod_same. lia.
Qed.

Lemma push_writes_one_slot_witness :
  let b := push_all [one; of_Z 2] (new_SingleChannelRingBuffer 3) in
  let b' := push (of_Z 7) b in
  _lastSampleI b' = 2 /\ elements b' = [one; of_Z 2; of_Z 7].
Proof.
  destruct (push_writes_one_slot 3 [one; of_Z 2] (of_Z 7) ltac:(lia))
    as (_ & Hcursor & _).
  split; [exact Hcursor | vm_compute; reflexivity].
Defined.

(** C9, as the specification states it: the slot does not receive [v] itself.
    Pushing the number 0.1 into a fresh buffer stores its binary32
    rounding, 0.100000001490116..., a different number. *)
Lemma push_writes_rounded_value :
  let b' := push (of_decimal 1 1) (new_SingleChannelRingBuffer 1) in
  elements b' !! 0%nat <> Some (of_decimal 1 1)
  /\ (exists w, elements b' !! 0%nat = Some w /\ strict_eq w (of_decimal 1 1) = false).
Proof.
  split.
  - vm_compute. discriminate.
  - exists (Math_fround (of_decimal 1 1)). split; vm_compute; reflexivity.
Qed.

(** C4 (as amended).  After pushing [k] values [v_0 ... v_(k-1)] into a new
    buffer of capacity [k > 0], [getReverse(k-1)] returns the binary32
    rounding of [v_0] and [getReverse(0)] that of [v_(k-1)], in development
    and in production builds; the values come back unchanged when they are
    binary32 values. *)
Theorem ring_round_trip (dev : bool) (k : nat) (vals : list number) (v0 vlast : number) :
  (0 < k)%nat -> length vals = k ->
  vals !! 0%nat = Some v0 -> vals !! (k - 1)%nat = Some vlast ->
  let b := push_all vals (new_SingleChannelRingBuffer k) in
  getReverse dev (Z.of_nat k - 1) b = Normal (Some (Math_fround v0))
  /\ getReverse dev 0 b = Normal (Some (Math_fround vlast))
  /\ (Math_fround v0 = v0 -> getReverse dev (Z.of_nat k - 1) b = Normal (Some v0))
  /\ (Math_fround vlast = vlast -> getReverse dev 0 b = Normal (Some vlast)).
Proof.
  intros Hk Hlen H0 Hl b.
  assert (Hnew : rb_valid (new_SingleChannelRingBuffer k)) by apply rb_valid_new, Hk.
  assert (Hfit : (length vals <= length (elements (new_SingleChannelRingBuffer k)))%nat).
  { simpl. rewrite length_new_Float32Array. lia. }
  assert (Hfirst : getReverse dev (Z.of_nat k - 1) b = Normal (Some (Math_fround v0))).
  { replace (Z.of_nat k - 1) with (Z.of_nat (k - 1)) by lia.
    unfold b. rewrite getReverse_push_all by (done || lia).
    rewrite reverse_lookup by lia.
    replace (length vals - S (k - 1))%nat with 0%nat by lia.
    by rewrite H0. }
  assert (Hlast : getReverse dev 0 b = Normal (Some (Math_fround vlast))).
  { unfold b. rewrite (getReverse_push_all dev vals _ 0) by (done || lia).
    rewrite reverse_lookup by lia.
    replace (length vals - 1)%nat with (k - 1)%nat by lia.
    by rewrite Hl. }
  repeat split; [done | done | |].
  - intros E. by rewrite Hfirst, E.
  - intros E. by rewrite Hlast, E.
Qed.

Lemma ring_round_trip_witness :
  let b := push_all [one; of_Z 2; of_Z 3] (new_SingleChannelRingBuffer 3) in
  getReverse true 2 b = Normal (Some one) /\ getReverse true 0 b = Normal (Some (of_Z 3)).
Proof.
  destruct (ring_round_trip true 3 [one; of_Z 2; of_Z 3] one (of_Z 3)
              ltac:(lia) eq_refl eq_refl eq_refl) as (H1 & H2 & _).
  split; [exact H1 | exact H2].
Defined.

(** C4, as the specification states it: the values do not come back as they were
    pushed.  With capacity 1 and the number 0.1 pushed, [getReverse(0)]
    returns 0.100000001490116..., not 0.1. *)
Lemma ring_round_trip_rounds :
  getReverse false 0 (push_all [of_decimal 1 1] (new_SingleChannelRingBuffer 1))
  <> Normal (Some (of_decimal 1 1)).
Proof. vm_compute. discriminate. Qed.

(** C5 (as amended).  In development builds [getReverse(depth)] throws a
    [RangeError] exactly when [depth >= capacity]; every call with
    [depth < capacity], a negative depth included, returns normally. *)
Theorem getReverse_dev_throws_iff (b : SingleChannelRingBuffer) (depth : Z) :
  (getReverse true depth b = Throw RangeError <-> rb_length b <= depth)
  /\ throws (getReverse true depth b) = (rb_length b <=? depth).
Proof.
  unfold getReverse. simpl.
  destruct (Z.leb_spec (rb_length b) depth); simpl; (split; [split|]); try done; lia.
Qed.

(** C5, as the specification states it: a negative depth violates the precondition
    and still does not throw in a development build.  On a new buffer of
    capacity 4, [getReverse(-1)] returns the element of slot 0. *)
Lemma getReverse_dev_negative_depth :
  getReverse true (-1) (new_SingleChannelRingBuffer 4) = Normal (Some pzero)
  /\ throws (getReverse true (-1) (new_SingleChannelRingBuffer 4)) = false.
Proof. split; reflexivity. Qed.

(** ** The processor *)

(** C7.  A call of [process] with an input of no channels returns normally
    (with [keepAlive]) and leaves the output block, the ring buffer and the
    running sum as they were, in development and in production builds. *)
Theorem process_zero_channels (dev : bool) (sampleRate : number) (g : Global)
        (p : VolumeFilterProcessor) (outputChannel : Float32Array)
        (parameters : Parameters) :
  let r := process dev sampleRate g p [] outputChannel parameters in
  res_outputChannel r = outputChannel
  /\ res_processor r = p
  /\ _sampleSquaresRingBuffer (res_processor r) = _sampleSquaresRingBuffer p
  /\ _currWindowSquaresSum (res_processor r) = _currWindowSquaresSum p
  /\ res_completion r = Normal (keepAlive p).
Proof. by cbv zeta; unfold process. Qed.

Section Diagnostics.

Variable dev : bool.
Variable sampleRate : number.

Lemma res_global_process g p input outputChannel parameters :
  res_global (process dev sampleRate g p input outputChannel parameters)
  = dev_check dev sampleRate g p
      (of_value (typed_get (smoothingWindowLength parameters) 0))
      (windowLengthNumSecondsToSamples sampleRate
         (of_value (typed_get (smoothingWindowLength parameters) 0))).
Proof.
  unfold process. destruct input as [|channel0 input]; [done|].
  destruct (dev && negb (length channel0 =? SAMPLES_PER_QUANTUM)%nat); [done|].
  by destruct (process_samples _ _ _ _ _) as [st c].
Qed.

Lemma logged_once_dev_check g p swl swlSamples :
  logged_once g -> logged_once (dev_check dev sampleRate g p swl swlSamples).
Proof.
  intros H. unfold dev_check.
  destruct dev; simpl; [|exact H].
  destruct (strict_ne _ _); simpl; [|exact H].
  destruct (devErrorShown g) eqn:E; simpl; [exact H|].
  destruct H as [Hflag _]. split; simpl; [done|].
  rewrite (Hflag E). simpl. lia.
Qed.

Lemma logged_once_run_calls w calls :
  logged_once w.1 -> logged_once (run_calls dev sampleRate w calls).1.
Proof.
  revert w. induction calls as [|c calls IH]; intros w Hw; [done|].
  simpl. apply IH. unfold run_call.
  destruct (w.2 !! call_processor c) as [p|]; [|done].
  simpl. rewrite res_global_process. by apply logged_once_dev_check.
Qed.

End Diagnostics.

(** C8.  In a development build, whatever processors exist and whatever
    sequence of [process] calls is made on them, starting from the module
    state of a fresh scope, the diagnostic about a changed smoothing window
    length is written to the console at most once. *)
Theorem dev_error_logged_at_most_once (sampleRate : number)
        (processors : list VolumeFilterProcessor) (calls : list Call) :
  (length (console (run_calls true sampleRate (initial_Global, processors) calls).1) <= 1)%nat.
Proof.
  apply (logged_once_run_calls true sampleRate (initial_Global, processors) calls).
  split; [done | simpl; lia].
Qed.

(** ** Signs *)

Section Signs.

Lemma binary_round_aux_sign p em s mx ex lx :
  has_sign s (binary_round_aux p em s mx ex lx).
Proof.
  unfold binary_round_aux.
  destruct (shr_fexp p em mx ex lx) as [mrs' e'].
  destruct (shr_fexp p em _ e' loc_Exact) as [mrs'' e''].
  destruct (shr_m mrs''); simpl; [done | | done].
  by destruct (e'' <=? em - p).
Qed.

Lemma binary_round_sign p em s m e : has_sign s (binary_round p em s m e).
Proof.
  unfold binary_round. destruct (shl_align _ _ _) as [mz ez].
  apply binary_round_aux_sign.
Qed.

Lemma has_sign_not_negative x : has_sign false x -> not_negative x = true.
Proof. destruct x as [s|s| |s m e]; simpl; intros; subst; done. Qed.

Lemma not_negative_Math_max x : not_negative (Math_max x (of_Z 0)) = true.
Proof. by destruct x as [[]|[]| |[] m e]. Qed.

Lemma not_negative_Math_sqrt x : not_negative (Math_sqrt x) = true.
Proof.
  destruct x as [[]|[]| |[] m e]; try done.
  unfold Math_sqrt, SFsqrt.
  destruct (SFsqrt_core_binary _ _ _ _) as [[mz ez] lz].
  apply has_sign_not_negative, binary_round_aux_sign.
Qed.

Lemma not_negative_Math_fround x :
  not_negative x = true -> not_negative (Math_fround x) = true.
Proof.
  destruct x as [s|s| |[] m e]; try done. intros _. unfold Math_fround.
  pose proof (binary_round_sign 24 128 false m e) as H.
  destruct (binary_round 24 128 false m e) as [s'|s'| |s' m' e'];
    simpl in H; subst; try done.
  apply has_sign_not_negative, binary_round_sign.
Qed.

End Signs.

(** ** Non-negativity *)

Section NeverNegative.

Variable dev : bool.
Variable sampleRate : number.

Lemma written_not_negative_refl a : written_not_negative a a.
Proof. intros j v Hv. by left. Qed.

Lemma written_not_negative_trans a1 a2 a3 :
  written_not_negative a1 a2 -> written_not_negative a2 a3 ->
  written_not_negative a1 a3.
Proof.
  intros H12 H23 j v Hv. destruct (H23 j v Hv) as [H|H]; [|by right].
  by apply H12.
Qed.

Lemma written_not_negative_typed_set a i x :
  not_negative x = true -> written_not_negative a (typed_set a i x).
Proof.
  intros Hx j v. unfold typed_set. destruct (0 <=? i); [|by left].
  destruct (decide (Z.to_nat i = j)) as [<-|Hne].
  - intros Hv. apply list_lookup_insert_Some in Hv as [(_ & <- & _)|[? _]]; [|done].
    right. by apply not_negative_Math_fround.
  - rewrite list_lookup_insert_ne by done. by left.
Qed.

Lemma process_sample_not_negative input n sampleI st st' :
  process_sample dev input n sampleI st = Normal st' ->
  not_negative (ls_sum st') = true
  /\ written_not_negative (ls_output st) (ls_output st').
Proof.
  unfold process_sample.
  destruct (getReverse_number _ _ _) as [last|]; [|discriminate].
  intros [= <-]. simpl. split.
  - apply not_negative_Math_max.
  - apply written_not_negative_typed_set, not_negative_Math_sqrt.
Qed.

Lemma process_samples_not_negative input n sampleIs st :
  let r := process_samples dev input n sampleIs st in
  (not_negative (ls_sum st) = true -> not_negative (ls_sum r.1) = true)
  /\ written_not_negative (ls_output st) (ls_output r.1).
Proof.
  revert st. induction sampleIs as [|i rest IH]; intros st; simpl.
  - split; [done | apply written_not_negative_refl].
  - destruct (process_sample dev input n i st) as [st'|] eqn:E; simpl.
    + apply process_sample_not_negative in E as [Hsum Hout].
      destruct (IH st') as [IHsum IHout]. split.
      * intros _. by apply IHsum.
      * by apply written_not_negative_trans with (ls_output st').
    + split; [done | apply written_not_negative_refl].
Qed.

End NeverNegative.

(** ** The ring buffer implements the sliding window *)

Section Refinement.

Implicit Types (b : SingleChannelRingBuffer) (v : number).

Lemma window_length b : length (window b) = length (elements b).
Proof. unfold window. by rewrite length_fmap, length_seq. Qed.

Lemma window_lookup b (d : nat) :
  rb_valid b -> (d < length (elements b))%nat ->
  exists x, typed_get (elements b) (slot_of b (Z.of_nat d)) = Some x
            /\ window b !! d = Some x.
Proof.
  intros Hb Hd.
  pose proof (slot_of_range b (Z.of_nat d)) as Hs.
  destruct Hb as [Hlo Hhi]. specialize (Hs ltac:(lia)).
  destruct (lookup_lt_is_Some_2 (elements b) (Z.to_nat (slot_of b (Z.of_nat d))))
    as [x Hx]; [unfold rb_length in Hs; lia|].
  exists x. unfold window, typed_get.
  destruct (Z.leb_spec 0 (slot_of b (Z.of_nat d))); [|lia].
  split; [done|].
  rewrite list_lookup_fmap, lookup_seq_lt by done. simpl.
  unfold typed_get. destruct (Z.leb_spec 0 (slot_of b (Z.of_nat d))); [|lia].
  by rewrite Hx.
Qed.

(** [getReverse] reads the window. *)
Lemma getReverse_window dev b (d : nat) :
  rb_valid b -> (d < length (elements b))%nat ->
  getReverse dev (Z.of_nat d) b = Normal (window b !! d).
Proof.
  intros Hb Hd. destruct (window_lookup b d Hb Hd) as (x & Hx & ->).
  rewrite getReverse_slot by (done || unfold rb_length; lia).
  by rewrite Hx.
Qed.

(** [push] shifts the window by one. *)
Lemma window_push v b :
  rb_valid b ->
  window (push v b) = Math_fround v :: take (length (window b) - 1) (window b).
Proof.
  intros Hb. pose proof (rb_valid_push v b Hb) as Hb'.
  assert (Hlen : length (elements (push v b)) = length (elements b))
    by apply length_typed_set.
  assert (Hk : (0 < length (elements b))%nat).
  { destruct Hb as [? ?]. unfold rb_length in *. lia. }
  apply list_eq. intros [|d].
  - destruct (window_lookup (push v b) 0 Hb' ltac:(lia)) as (x & Hx & ->).
    simpl. rewrite <- Hx.
    pose proof (getReverse_push_0 false v b Hb) as H0.
    rewrite getReverse_slot in H0 by (done || (destruct Hb'; lia)).
    by injection H0.
  - simpl. destruct (decide (S d < length (elements b))%nat) as [Hd|Hd].
    + rewrite lookup_take_lt by (rewrite window_length; lia).
      destruct (window_lookup (push v b) (S d) Hb' ltac:(lia)) as (x & Hx & ->).
      destruct (window_lookup b d Hb ltac:(lia)) as (y & Hy & ->).
      rewrite <- Hx, <- Hy.
      pose proof (getReverse_push_succ false v b (Z.of_nat d) Hb ltac:(lia)) as Hs.
      rewrite !getReverse_slot in Hs
        by (done || rewrite ?rb_length_push; unfold rb_length; lia).
      replace (Z.of_nat (S d)) with (Z.of_nat d + 1) by lia.
      injection Hs; [done|]. unfold rb_length. lia.
    + rewrite lookup_take_ge by (rewrite window_length; lia).
      apply lookup_ge_None_2. rewrite window_length. lia.
Qed.

Lemma window_replicate b x :
  rb_valid b -> elements b = replicate (length (elements b)) x ->
  window b = replicate (length (elements b)) x.
Proof.
  intros Hb He. apply list_eq. intros d.
  destruct (decide (d < length (elements b))%nat) as [Hd|Hd].
  - destruct (window_lookup b d Hb Hd) as (y & Hy & ->).
    rewrite lookup_replicate_2 by done.
    unfold typed_get in Hy. destruct (0 <=? _); [|done].
    rewrite He in Hy. by apply lookup_replicate_1 in Hy as [-> _].
  - rewrite lookup_ge_None_2 by (rewrite window_length; lia).
    symmetry. apply lookup_replicate_None. lia.
Qed.

Variable dev : bool.

(** One step of the loop of [process] is one step on the window, as long as
    the depth read is inside the buffer; the step does not throw. *)
Lemma process_sample_window input n (d : nat) sampleI (st : LoopState) :
  rb_valid (ls_ring st) ->
  to_Z (sub n (of_Z 1)) = Some (Z.of_nat d) ->
  (d < length (elements (ls_ring st)))%nat ->
  exists st',
    process_sample dev input n sampleI st = Normal st'
    /\ rb_valid (ls_ring st')
    /\ length (elements (ls_ring st')) = length (elements (ls_ring st))
    /\ window_state (ls_ring st') (ls_sum st') (ls_output st')
       = window_sample input n d sampleI
           (window_state (ls_ring st) (ls_sum st) (ls_output st)).
Proof.
  intros Hb Hn Hd. unfold process_sample, getReverse_number. rewrite Hn.
  rewrite getReverse_window by done.
  eexists. split; [reflexivity|]. simpl. split; [by apply rb_valid_push|]. split.
  { apply length_typed_set. }
  unfold window_state, window_sample. simpl. by rewrite window_push.
Qed.

Lemma process_samples_window input n (d : nat) sampleIs (st : LoopState) :
  rb_valid (ls_ring st) ->
  to_Z (sub n (of_Z 1)) = Some (Z.of_nat d) ->
  (d < length (elements (ls_ring st)))%nat ->
  exists st',
    process_samples dev input n sampleIs st = (st', Normal tt)
    /\ rb_valid (ls_ring st')
    /\ length (elements (ls_ring st')) = length (elements (ls_ring st))
    /\ window_state (ls_ring st') (ls_sum st') (ls_output st')
       = window_samples input n d sampleIs
           (window_state (ls_ring st) (ls_sum st) (ls_output st)).
Proof.
  intros Hb Hn. revert st Hb.
  induction sampleIs as [|i rest IH]; intros st Hb Hd; simpl.
  - by exists st.
  - destruct (process_sample_window input n d i st Hb Hn Hd)
      as (st1 & -> & Hb1 & Hlen1 & Habs1).
    destruct (IH st1 Hb1 ltac:(lia)) as (st' & -> & Hb' & Hlen' & Habs').
    exists st'. split; [reflexivity|]. split; [exact Hb'|]. split; [lia|].
    by rewrite Habs', Habs1.
Qed.

End Refinement.

(** A block that fills the whole output channel overwrites what was there:
    the result does not depend on the old content. *)
Lemma window_samples_overwrites input n d (j : nat) w s (out1 out2 : Float32Array) :
  length out1 = length out2 ->
  let r1 := window_samples input n d (seq 0 j)
              {| ws_window := w; ws_sum := s; ws_output := out1 |} in
  let r2 := window_samples input n d (seq 0 j)
              {| ws_window := w; ws_sum := s; ws_output := out2 |} in
  ws_window r1 = ws_window r2 /\ ws_sum r1 = ws_sum r2
  /\ length (ws_output r1) = length out1 /\ length (ws_output r2) = length out1
  /\ forall i : nat, (i < j)%nat -> ws_output r1 !! i = ws_output r2 !! i.
Proof.
  intros Hlen. induction j as [|j IH]; cbv zeta in *.
  - simpl. repeat split; try done. intros i Hi. lia.
  - rewrite seq_S. unfold window_samples in *. rewrite !foldl_snoc.
    destruct IH as (Hw & Hs & Hl1 & Hl2 & Hout).
    set (r1 := foldl _ {| ws_window := w; ws_sum := s; ws_output := out1 |} (seq 0 j)) in *.
    set (r2 := foldl _ {| ws_window := w; ws_sum := s; ws_output := out2 |} (seq 0 j)) in *.
    unfold window_sample. simpl.
    rewrite Hw, Hs, !length_typed_set. repeat split; try done.
    intros i Hi. unfold typed_set.
    destruct (Z.leb_spec 0 (Z.of_nat j)); [|lia]. rewrite Nat2Z.id.
    destruct (decide (i = j)) as [->|Hne].
    + destruct (decide (j < length out1)%nat).
      * by rewrite !list_lookup_insert_eq by lia.
      * by rewrite !lookup_ge_None_2 by (rewrite length_insert; lia).
    + rewrite !list_lookup_insert_ne by done. apply Hout. lia.
Qed.

Lemma window_samples_fresh_output input n d w s (out : Float32Array) :
  ws_output (window_samples input n d (seq 0 (length out))
               {| ws_window := w; ws_sum := s; ws_output := out |})
  = ws_output (window_samples input n d (seq 0 (length out))
                 {| ws_window := w; ws_sum := s;
                    ws_output := new_Float32Array (length out) |}).
Proof.
  destruct (window_samples_overwrites input n d (length out) w s out
              (new_Float32Array (length out)))
    as (_ & _ & Hl1 & Hl2 & Hout).
  { by rewrite length_new_Float32Array. }
  apply list_eq. intros i. destruct (decide (i < length out)%nat).
  - by apply Hout.
  - by rewrite !lookup_ge_None_2 by lia.
Qed.

Lemma window_samples_fresh_output' input n d w s (out : Float32Array) (N : nat) :
  length out = N ->
  ws_output (window_samples input n d (seq 0 N)
               {| ws_window := w; ws_sum := s; ws_output := out |})
  = ws_output (window_samples input n d (seq 0 N)
                 {| ws_window := w; ws_sum := s;
                    ws_output := new_Float32Array N |}).
Proof. intros <-. apply window_samples_fresh_output. Qed.

(** C3.  Scenario A: at 48 kHz with a window of 960 samples, a ring buffer
    that holds 0 in every slot (the cursor anywhere) and a running sum of 0,
    one block of 128 samples of the constant 0.5 on 2 channels gives an
    output that increases strictly from each sample to the next, and no
    output sample exceeds sqrt(0.25) = 0.5.  The call returns normally, in
    development and in production builds. *)
Theorem transient_fill (dev : bool) (g : Global) (p : VolumeFilterProcessor)
        (outputChannel : Float32Array) (parameters : Parameters) :
  elements (_sampleSquaresRingBuffer p) = replicate 960 pzero ->
  rb_valid (_sampleSquaresRingBuffer p) ->
  _currWindowSquaresSum p = pzero ->
  length outputChannel = 128%nat ->
  windowLengthNumSecondsToSamples (of_Z 48000)
    (of_value (typed_get (smoothingWindowLength parameters) 0)) = of_Z 960 ->
  let half := of_decimal 5 1 in
  let r := process dev (of_Z 48000) g p [replicate 128 half; replicate 128 half]
             outputChannel parameters in
  res_completion r = Normal (keepAlive p)
  /\ length (res_outputChannel r) = 128%nat
  /\ strictly_increasing (res_outputChannel r) = true
  /\ forallb (fun v => Number.le v half) (res_outputChannel r) = true
  /\ Math_sqrt (of_decimal 25 2) = half.
Proof.
  intros Hel Hvalid Hsum Hout Hn half r.
  assert (Hk : length (elements (_sampleSquaresRingBuffer p)) = 960%nat)
    by (rewrite Hel; apply length_replicate).
  unfold r, process. rewrite Hn. cbv beta iota zeta.
  rewrite length_replicate.
  replace (128 =? SAMPLES_PER_QUANTUM)%nat with true by reflexivity.
  rewrite andb_false_r.
  assert (Hw : window (_sampleSquaresRingBuffer p) = replicate 960 pzero).
  { rewrite <- Hk. apply window_replicate; [exact Hvalid | rewrite Hk; exact Hel]. }
  destruct (process_samples_window dev [replicate 128 half; replicate 128 half]
              (of_Z 960) 959 (seq 0 128)
              {| ls_ring := _sampleSquaresRingBuffer p;
                 ls_sum := _currWindowSquaresSum p;
                 ls_output := outputChannel |})
    as (st' & -> & _ & _ & Habs);
    [exact Hvalid | reflexivity | cbn [ls_ring]; rewrite Hk; apply Nat.ltb_lt; reflexivity |].
  cbv beta iota zeta. unfold res_completion, res_outputChannel.
  unfold window_state in Habs. cbn [ls_ring ls_sum ls_output] in Habs.
  rewrite Hw, Hsum in Habs.
  apply (f_equal ws_output) in Habs. cbn [ws_output] in Habs.
  rewrite (window_samples_fresh_output' _ _ _ _ _ outputChannel 128 Hout) in Habs.
  rewrite Habs.
  repeat split; vm_compute; reflexivity.
Qed.

Lemma transient_fill_witness :
  strictly_increasing
    (res_outputChannel
       (process true (of_Z 48000) initial_Global scenario_A_processor
          [replicate 128 (of_decimal 5 1); replicate 128 (of_decimal 5 1)]
          (new_Float32Array 128)
          {| smoothingWindowLength := [Math_fround (of_decimal 2 2)] |})) = true.
Proof.
  assert (H5 : windowLengthNumSecondsToSamples (of_Z 48000)
                 (of_value (typed_get [Math_fround (of_decimal 2 2)] 0)) = of_Z 960)
    by (vm_compute; reflexivity).
  pose proof (transient_fill true initial_Global scenario_A_processor
                (new_Float32Array 128)
                {| smoothingWindowLength := [Math_fround (of_decimal 2 2)] |}
                eq_refl (rb_valid_new 960 ltac:(lia)) eq_refl eq_refl H5) as H.
  cbv zeta in H. destruct H as (_ & _ & H & _). exact H.
Defined.

(** ** Integers as numbers

    Integers below 2^53 are numbers, and adding and subtracting them is
    exact. *)

Section IntegerArithmetic.

Lemma digits_bounds m : 2 ^ (digits m - 1) <= Zpos m < 2 ^ digits m.
Proof.
  unfold digits. induction m as [m IH|m IH|]; simpl digits2_pos.
  - rewrite Pos2Z.inj_succ, (Pos2Z.inj_xI m).
    replace (Z.succ (Zpos (digits2_pos m)) - 1) with (Z.succ (Zpos (digits2_pos m) - 1)) by lia.
    rewrite !Z.pow_succ_r by lia. lia.
  - rewrite Pos2Z.inj_succ, (Pos2Z.inj_xO m).
    replace (Z.succ (Zpos (digits2_pos m)) - 1) with (Z.succ (Zpos (digits2_pos m) - 1)) by lia.
    rewrite !Z.pow_succ_r by lia. lia.
  - simpl. lia.
Qed.

Lemma digits_pos m : 0 < digits m.
Proof. unfold digits. lia. Qed.

Lemma digits_unique m d : 2 ^ (d - 1) <= Zpos m < 2 ^ d -> digits m = d.
Proof.
  intros [Hlo Hhi]. pose proof (digits_bounds m) as [Blo Bhi].
  pose proof (digits_pos m).
  assert (0 < d).
  { destruct (Z.lt_ge_cases 0 d); [done|].
    assert (2 ^ d <= 2 ^ 0) by (destruct (Z.eq_dec d 0) as [->|]; [done|];
                                rewrite Z.pow_neg_r by lia; simpl; lia).
    simpl in *. lia. }
  destruct (Z.lt_trichotomy (digits m) d) as [Hlt|[Heq|Hgt]]; [|done|].
  - assert (2 ^ digits m <= 2 ^ (d - 1)) by (apply Z.pow_le_mono_r; lia). lia.
  - assert (2 ^ d <= 2 ^ (digits m - 1)) by (apply Z.pow_le_mono_r; lia). lia.
Qed.

Lemma iter_xO m d : Zpos (Pos.iter xO m d) = Zpos m * 2 ^ Zpos d.
Proof.
  induction d as [|d IH] using Pos.peano_ind.
  - simpl. lia.
  - rewrite Pos.iter_succ, Pos2Z.inj_xO, IH, Pos2Z.inj_succ, Z.pow_succ_r by lia. lia.
Qed.

Lemma iter_pos_comm {A} (f : A -> A) p x : SpecFloat.iter_pos f p (f x) = f (SpecFloat.iter_pos f p x).
Proof.
  revert x. induction p as [p IH|p IH|]; intros x; simpl; [|by rewrite !IH|done].
  by rewrite !IH.
Qed.

Lemma iter_pos_succ {A} (f : A -> A) p x : SpecFloat.iter_pos f (Pos.succ p) x = SpecFloat.iter_pos f p (f x).
Proof.
  revert x. induction p as [p IH|p IH|]; intros x; simpl; [|done|done].
  by rewrite !IH, !iter_pos_comm.
Qed.

(** Shifting out zero bits is exact. *)
Lemma iter_shr_1_exact p (M m : positive) :
  Zpos M = Zpos m * 2 ^ Zpos p ->
  SpecFloat.iter_pos shr_1 p {| shr_m := Zpos M; shr_r := false; shr_s := false |}
  = {| shr_m := Zpos m; shr_r := false; shr_s := false |}.
Proof.
  revert M. induction p as [|p IH] using Pos.peano_ind; intros M HM.
  - simpl. destruct M as [M|M|]; [lia| |lia]. simpl. f_equal. lia.
  - rewrite iter_pos_succ.
    rewrite Pos2Z.inj_succ, Z.pow_succ_r in HM by lia.
    destruct M as [M|M|]; [lia| |lia].
    simpl. apply IH. lia.
Qed.

Lemma digits_shift (m M : positive) t :
  0 <= t -> Zpos m = Zpos M * 2 ^ t -> digits m = digits M + t.
Proof.
  intros Ht Hm. apply digits_unique.
  pose proof (digits_bounds M) as [Blo Bhi]. pose proof (digits_pos M).
  replace (digits M + t - 1) with (digits M - 1 + t) by lia.
  rewrite !Z.pow_add_r by lia. rewrite Hm.
  pose proof (Z.pow_pos_nonneg 2 t ltac:(lia) Ht).
  split; [apply Z.mul_le_mono_nonneg_r | apply Z.mul_lt_mono_pos_r]; lia.
Qed.

Lemma fexp_normal e : -1074 <= e -> fexp 53 1024 (53 + e) = e.
Proof. intros He. unfold fexp, emin. lia. Qed.

(** Rounding a mantissa that needs no rounding: [M * 2^E] with
    [M = m * 2^(e - E)] and [m] of 53 bits is the number [m * 2^e]. *)
Lemma binary_round_aux_exact s (M m : positive) E e :
  digits m = 53 -> -1074 <= e <= 971 -> E <= e ->
  Zpos M = Zpos m * 2 ^ (e - E) ->
  binary_round_aux 53 1024 s (Zpos M) E loc_Exact = S754_finite s m e.
Proof.
  intros Hd He HE HM.
  assert (HdM : digits M = 53 + (e - E))
    by (rewrite <- Hd; apply digits_shift; [lia | done]).
  assert (Hshift : shr_fexp 53 1024 (Zpos M) E loc_Exact
                   = ({| shr_m := Zpos m; shr_r := false; shr_s := false |}, e)).
  { unfold shr_fexp. cbn [Zdigits2 shr_record_of_loc]. fold (digits M).
    rewrite HdM. replace (53 + (e - E) + E) with (53 + e) by lia.
    rewrite fexp_normal by lia. unfold shr.
    destruct (e - E) as [|p|p] eqn:Ediff; [| |lia].
    - rewrite Z.pow_0_r, Z.mul_1_r in HM. injection HM as ->.
      f_equal. lia.
    - rewrite (iter_shr_1_exact p M m HM). f_equal. lia. }
  assert (Hstay : shr_fexp 53 1024 (Zpos m) e loc_Exact
                  = ({| shr_m := Zpos m; shr_r := false; shr_s := false |}, e)).
  { unfold shr_fexp. cbn [Zdigits2 shr_record_of_loc]. fold (digits m).
    rewrite Hd, fexp_normal, Z.sub_diag by lia. reflexivity. }
  unfold binary_round_aux. rewrite Hshift.
  cbn [shr_m loc_of_shr_record round_nearest_even]. rewrite Hstay. cbn [shr_m].
  by destruct (Z.leb_spec e (1024 - 53)); [|lia].
Qed.

(** The same for [binary_round], which may also have to shift to the left. *)
Lemma binary_round_exact s (M m : positive) E e :
  digits m = 53 -> -1074 <= e <= 971 ->
  (e <= E /\ Zpos m = Zpos M * 2 ^ (E - e)) \/ (E <= e /\ Zpos M = Zpos m * 2 ^ (e - E)) ->
  binary_round 53 1024 s M E = S754_finite s m e.
Proof.
  intros Hd He Hcase. unfold binary_round. fold (digits M).
  assert (HdM : digits M + E = 53 + e).
  { destruct Hcase as [[HE Hm]|[HE HM]].
    - rewrite (digits_shift m M (E - e)) in Hd by (lia || done). lia.
    - rewrite (digits_shift M m (e - E)) by (lia || done). lia. }
  rewrite HdM, fexp_normal by lia. unfold shl_align.
  destruct (e - E) as [|p|p] eqn:Ediff.
  - apply binary_round_aux_exact; [done | done | lia |].
    replace E with e in * by lia. rewrite Z.sub_diag, Z.pow_0_r in *.
    destruct Hcase as [[_ H]|[_ H]]; lia.
  - apply binary_round_aux_exact; [done | done | lia |].
    rewrite Ediff. destruct Hcase as [[HE Hm]|[HE HM]]; [lia | exact HM].
  - apply binary_round_aux_exact; [done | done | lia |].
    rewrite Z.sub_diag, Z.pow_0_r, Z.mul_1_r, iter_xO.
    destruct Hcase as [[HE Hm]|[HE HM]]; [|lia].
    rewrite Hm. f_equal. f_equal. lia.
Qed.

Lemma digits_le_53 (z : positive) : Zpos z < 2 ^ 53 -> digits z <= 53.
Proof.
  intros Hz. pose proof (digits_bounds z) as [Blo _].
  destruct (Z.le_gt_cases (digits z) 53) as [|Hgt]; [done|].
  assert (2 ^ 53 <= 2 ^ (digits z - 1)) by (apply Z.pow_le_mono_r; lia). lia.
Qed.

Lemma int_mantissa_eq (z : positive) :
  digits z <= 53 -> Zpos (int_mantissa z) = Zpos z * 2 ^ (53 - digits z).
Proof.
  intros Hd. unfold int_mantissa. apply Z2Pos.id.
  pose proof (Z.pow_pos_nonneg 2 (53 - digits z) ltac:(lia) ltac:(lia)). lia.
Qed.

Lemma digits_int_mantissa (z : positive) : digits z <= 53 -> digits (int_mantissa z) = 53.
Proof.
  intros Hd. rewrite (digits_shift _ z (53 - digits z)); [lia | lia |].
  by apply int_mantissa_eq.
Qed.

(** A positive integer [z * 2^j] at exponent [-j] rounds to the number [z]. *)
Lemma binary_round_int s (z M : positive) j :
  digits z <= 53 -> 0 <= j -> Zpos M = Zpos z * 2 ^ j ->
  binary_round 53 1024 s M (- j) = S754_finite s (int_mantissa z) (digits z - 53).
Proof.
  intros Hd Hj HM. pose proof (digits_pos z).
  apply binary_round_exact; [by apply digits_int_mantissa | lia |].
  rewrite int_mantissa_eq, HM by done.
  destruct (Z.le_gt_cases (digits z - 53) (- j)).
  - left. split; [done|]. rewrite <- Z.mul_assoc, <- Z.pow_add_r by lia.
    f_equal. f_equal. lia.
  - right. split; [lia|]. rewrite <- Z.mul_assoc, <- Z.pow_add_r by lia.
    f_equal. f_equal. lia.
Qed.

Lemma of_Z_pos (z : positive) :
  Zpos z < 2 ^ 53 ->
  of_Z (Zpos z) = S754_finite false (int_mantissa z) (digits z - 53).
Proof.
  intros Hz. unfold of_Z, of_scaled, binary_normalize, prec, emax.
  apply (binary_round_int false z z 0); [by apply digits_le_53 | done | lia].
Qed.

Lemma of_scaled_int z e :
  0 <= z < 2 ^ 53 -> e <= 0 -> of_scaled (z * 2 ^ (- e)) e = of_Z z.
Proof.
  intros Hz He. destruct z as [|z|z]; [done| |lia].
  rewrite of_Z_pos by lia. unfold of_scaled, binary_normalize, prec, emax.
  pose proof (Z.pow_pos_nonneg 2 (- e) ltac:(lia) ltac:(lia)).
  destruct (Zpos z * 2 ^ (- e)) as [|M|M] eqn:EM; [lia| |lia].
  rewrite <- (Z.opp_involutive e) at 1.
  apply binary_round_int; [apply digits_le_53; lia | lia | done].
Qed.

Lemma shl_align_fst (m : positive) e ez :
  ez <= e -> Zpos (fst (shl_align m e ez)) = Zpos m * 2 ^ (e - ez).
Proof.
  intros He. unfold shl_align.
  destruct (ez - e) as [|p|p] eqn:Ediff; simpl fst.
  - replace (e - ez) with 0 by lia. lia.
  - lia.
  - rewrite iter_xO. f_equal. f_equal. lia.
Qed.

(** The value of the number of a positive integer, scaled to an exponent
    below its own. *)
Lemma int_mantissa_aligned (z : positive) ez :
  digits z <= 53 -> ez <= digits z - 53 ->
  Zpos (fst (shl_align (int_mantissa z) (digits z - 53) ez)) = Zpos z * 2 ^ (- ez).
Proof.
  intros Hd He. pose proof (digits_pos z).
  rewrite shl_align_fst, int_mantissa_eq by done.
  rewrite <- Z.mul_assoc, <- Z.pow_add_r by lia. f_equal. f_equal. lia.
Qed.

(** Addition and subtraction of integers are exact below 2^53. *)
Lemma add_of_Z a b :
  0 <= a -> 0 <= b -> a + b < 2 ^ 53 -> add (of_Z a) (of_Z b) = of_Z (a + b).
Proof.
  intros Ha Hb Hab.
  destruct a as [|a|a]; [|destruct b as [|b|b]|]; try lia.
  - destruct b as [|b|b]; [done| |lia]. rewrite Z.add_0_l. by rewrite of_Z_pos by lia.
  - rewrite Z.add_0_r. by rewrite of_Z_pos by lia.
  - rewrite (of_Z_pos a), (of_Z_pos b) by lia. unfold add, SFadd.
    pose proof (digits_le_53 a ltac:(lia)). pose proof (digits_le_53 b ltac:(lia)).
    set (ez := Z.min (digits a - 53) (digits b - 53)).
    rewrite !int_mantissa_aligned by (unfold ez; lia). cbn [cond_Zopp].
    rewrite <- Z.mul_add_distr_r.
    apply (of_scaled_int (Zpos a + Zpos b) ez); [lia|].
    pose proof (digits_pos a). unfold ez. lia.
Qed.

Lemma sub_of_Z a b :
  0 <= b <= a -> a < 2 ^ 53 -> sub (of_Z a) (of_Z b) = of_Z (a - b).
Proof.
  intros Hab Ha.
  destruct a as [|a|a]; [|destruct b as [|b|b]|]; try lia.
  - by replace b with 0 by lia.
  - rewrite Z.sub_0_r. by rewrite of_Z_pos by lia.
  - rewrite (of_Z_pos a), (of_Z_pos b) by lia. unfold sub, SFsub.
    pose proof (digits_le_53 a ltac:(lia)). pose proof (digits_le_53 b ltac:(lia)).
    set (ez := Z.min (digits a - 53) (digits b - 53)).
    rewrite !int_mantissa_aligned by (unfold ez; lia). cbn [cond_Zopp].
    rewrite <- Z.mul_sub_distr_r.
    apply (of_scaled_int (Zpos a - Zpos b) ez); [lia|].
    pose proof (digits_pos a). unfold ez. lia.
Qed.

Lemma to_Z_of_Z z : 0 <= z < 2 ^ 53 -> to_Z (of_Z z) = Some z.
Proof.
  intros Hz. destruct z as [|z|z]; [done| |lia].
  rewrite of_Z_pos by lia. unfold to_Z.
  pose proof (digits_le_53 z ltac:(lia)) as Hd. pose proof (digits_pos z).
  rewrite int_mantissa_eq by done. cbn [cond_Zopp].
  destruct (Z.leb_spec 0 (digits z - 53)).
  - replace (digits z - 53) with 0 by lia. replace (53 - digits z) with 0 by lia.
    f_equal. lia.
  - replace (- (digits z - 53)) with (53 - digits z) by lia.
    rewrite Z.mod_mul, Z.div_mul by (apply Z.pow_nonzero; lia). done.
Qed.

Lemma Math_max_of_Z z : 0 <= z < 2 ^ 53 -> Math_max (of_Z z) (of_Z 0) = of_Z z.
Proof.
  intros Hz. destruct z as [|z|z]; [done| |lia]. by rewrite of_Z_pos by lia.
Qed.

(** A finite number divided by itself is 1. *)
Lemma div_same s m e : div (S754_finite s m e) (S754_finite s m e) = one.
Proof.
  unfold div, SFdiv, SFdiv_core_binary.
  replace (Zdigits2 (Zpos m) + e - (Zdigits2 (Zpos m) + e)) with 0 by lia.
  rewrite Z.sub_diag.
  change (Z.min (fexp prec emax 0) 0) with (-53). change (0 - -53) with 53.
  cbv beta iota zeta.
  rewrite Z.shiftl_mul_pow2 by lia.
  assert (Hdiv : Z.div_eucl (Zpos m * 2 ^ 53) (Zpos m) = (2 ^ 53, 0)).
  { rewrite (surjective_pairing (Z.div_eucl _ _)).
    change (fst (Z.div_eucl ?a ?b)) with (a / b).
    change (snd (Z.div_eucl ?a ?b)) with (a mod b).
    rewrite Z.mul_comm, Z.div_mul, Z.mod_mul by lia. done. }
  rewrite Hdiv.
  assert (Hloc : new_location (Zpos m) 0 = loc_Exact).
  { unfold new_location. by destruct (Z.even (Zpos m)). }
  rewrite Hloc, xorb_nilpotent. vm_compute. reflexivity.
Qed.

Lemma div_of_Z_same z : 0 < z < 2 ^ 53 -> div (of_Z z) (of_Z z) = one.
Proof.
  intros Hz. destruct z as [|z|z]; [lia| |lia].
  rewrite of_Z_pos by lia. apply div_same.
Qed.

End IntegerArithmetic.

(** ** Negative integers as numbers *)

Section SignedIntegers.

Lemma of_Z_neg (z : positive) :
  Zpos z < 2 ^ 53 ->
  of_Z (Zneg z) = S754_finite true (int_mantissa z) (digits z - 53).
Proof.
  intros Hz. unfold of_Z, of_scaled, binary_normalize, prec, emax.
  apply (binary_round_int true z z 0); [by apply digits_le_53 | done | lia].
Qed.

Lemma of_scaled_int_signed z e :
  - 2 ^ 53 < z < 2 ^ 53 -> e <= 0 -> of_scaled (z * 2 ^ (- e)) e = of_Z z.
Proof.
  intros Hz He. destruct z as [|z|z]; [done | apply of_scaled_int; lia |].
  rewrite of_Z_neg by lia. unfold of_scaled, binary_normalize, prec, emax.
  pose proof (Z.pow_pos_nonneg 2 (- e) ltac:(lia) ltac:(lia)).
  destruct (Zneg z * 2 ^ (- e)) as [|M|M] eqn:EM; [lia|lia|].
  rewrite <- (Z.opp_involutive e) at 1.
  apply binary_round_int; [apply digits_le_53; lia | lia | lia].
Qed.

(** Addition and subtraction of integers of either sign are exact as long
    as the operands and the result are of magnitude below 2^53. *)
Lemma add_of_Z_signed a b :
  - 2 ^ 53 < a < 2 ^ 53 -> - 2 ^ 53 < b < 2 ^ 53 -> - 2 ^ 53 < a + b < 2 ^ 53 ->
  add (of_Z a) (of_Z b) = of_Z (a + b).
Proof.
  intros Ha Hb Hab.
  destruct a as [|a|a].
  { rewrite Z.add_0_l. destruct b as [|b|b]; [done | |].
    - by rewrite of_Z_pos by lia.
    - by rewrite of_Z_neg by lia. }
  all: destruct b as [|b|b];
    [by rewrite Z.add_0_r, ?(of_Z_pos a), ?(of_Z_neg a) by lia | |].
  all: rewrite ?(of_Z_pos a), ?(of_Z_neg a), ?(of_Z_pos b), ?(of_Z_neg b) by lia.
  all: unfold add, SFadd.
  all: pose proof (digits_le_53 a ltac:(lia)); pose proof (digits_le_53 b ltac:(lia)).
  all: pose proof (digits_pos a).
  all: set (ez := Z.min (digits a - 53) (digits b - 53)).
  all: rewrite !int_mantissa_aligned by (unfold ez; lia); cbn [cond_Zopp].
  - rewrite <- Z.mul_add_distr_r.
    apply (of_scaled_int_signed (Zpos a + Zpos b) ez); [lia | unfold ez; lia].
  - replace (Zpos a * 2 ^ (- ez) + - (Zpos b * 2 ^ (- ez)))
      with ((Zpos a + Zneg b) * 2 ^ (- ez)) by lia.
    apply (of_scaled_int_signed (Zpos a + Zneg b) ez); [lia | unfold ez; lia].
  - replace (- (Zpos a * 2 ^ (- ez)) + Zpos b * 2 ^ (- ez))
      with ((Zneg a + Zpos b) * 2 ^ (- ez)) by lia.
    apply (of_scaled_int_signed (Zneg a + Zpos b) ez); [lia | unfold ez; lia].
  - replace (- (Zpos a * 2 ^ (- ez)) + - (Zpos b * 2 ^ (- ez)))
      with ((Zneg a + Zneg b) * 2 ^ (- ez)) by lia.
    apply (of_scaled_int_signed (Zneg a + Zneg b) ez); [lia | unfold ez; lia].
Qed.

Lemma sub_of_Z_signed a b :
  - 2 ^ 53 < a < 2 ^ 53 -> - 2 ^ 53 < b < 2 ^ 53 -> - 2 ^ 53 < a - b < 2 ^ 53 ->
  sub (of_Z a) (of_Z b) = of_Z (a - b).
Proof.
  intros Ha Hb Hab.
  destruct a as [|a|a].
  - destruct b as [|b|b]; [done | |].
    + change (0 - Zpos b) with (Zneg b). by rewrite (of_Z_pos b), (of_Z_neg b) by lia.
    + change (0 - Zneg b) with (Zpos b). by rewrite (of_Z_pos b), (of_Z_neg b) by lia.
  - destruct b as [|b|b]; [by rewrite Z.sub_0_r, of_Z_pos by lia | |].
    all: rewrite ?(of_Z_pos a), ?(of_Z_pos b), ?(of_Z_neg b) by lia.
    all: unfold sub, SFsub.
    all: pose proof (digits_le_53 a ltac:(lia)); pose proof (digits_le_53 b ltac:(lia)).
    all: pose proof (digits_pos a).
    all: set (ez := Z.min (digits a - 53) (digits b - 53)).
    all: rewrite !int_mantissa_aligned by (unfold ez; lia); cbn [cond_Zopp].
    + rewrite <- Z.mul_sub_distr_r.
      apply (of_scaled_int_signed (Zpos a - Zpos b) ez); [lia | unfold ez; lia].
    + replace (Zpos a * 2 ^ (- ez) - - (Zpos b * 2 ^ (- ez)))
        with ((Zpos a - Zneg b) * 2 ^ (- ez)) by lia.
      apply (of_scaled_int_signed (Zpos a - Zneg b) ez); [lia | unfold ez; lia].
  - destruct b as [|b|b]; [by rewrite Z.sub_0_r, of_Z_neg by lia | |].
    all: rewrite ?(of_Z_neg a), ?(of_Z_pos b), ?(of_Z_neg b) by lia.
    all: unfold sub, SFsub.
    all: pose proof (digits_le_53 a ltac:(lia)); pose proof (digits_le_53 b ltac:(lia)).
    all: pose proof (digits_pos a).
    all: set (ez := Z.min (digits a - 53) (digits b - 53)).
    all: rewrite !int_mantissa_aligned by (unfold ez; lia); cbn [cond_Zopp].
    + replace (- (Zpos a * 2 ^ (- ez)) - Zpos b * 2 ^ (- ez))
        with ((Zneg a - Zpos b) * 2 ^ (- ez)) by lia.
      apply (of_scaled_int_signed (Zneg a - Zpos b) ez); [lia | unfold ez; lia].
    + replace (- (Zpos a * 2 ^ (- ez)) - - (Zpos b * 2 ^ (- ez)))
        with ((Zneg a - Zneg b) * 2 ^ (- ez)) by lia.
      apply (of_scaled_int_signed (Zneg a - Zneg b) ez); [lia | unfold ez; lia].
Qed.

Lemma to_Z_of_Z_signed z : - 2 ^ 53 < z < 2 ^ 53 -> to_Z (of_Z z) = Some z.
Proof.
  intros Hz. destruct z as [|z|z]; [done | apply to_Z_of_Z; lia |].
  rewrite of_Z_neg by lia. unfold to_Z.
  pose proof (digits_le_53 z ltac:(lia)) as Hd. pose proof (digits_pos z).
  rewrite int_mantissa_eq by done. cbn [cond_Zopp].
  destruct (Z.leb_spec 0 (digits z - 53)).
  - replace (digits z - 53) with 0 by lia. replace (53 - digits z) with 0 by lia.
    f_equal. lia.
  - replace (- (digits z - 53)) with (53 - digits z) by lia.
    rewrite Z.mod_mul, Z.div_mul by (apply Z.pow_nonzero; lia). done.
Qed.

(** The remainder of integers is exact; a zero remainder is [-0] for a
    negative dividend, which is the index 0 all the same. *)
Lemma to_Z_rem_of_Z t k :
  - 2 ^ 53 < t < 2 ^ 53 -> 0 < k < 2 ^ 53 ->
  to_Z (rem (of_Z t) (of_Z k)) = Some (Z.rem t k).
Proof.
  intros Ht Hk. destruct k as [|k|k]; [lia| |lia].
  assert (Hcore : forall (s : bool) (z : positive),
             Zpos z < 2 ^ 53 ->
             to_Z (rem (S754_finite s (int_mantissa z) (digits z - 53))
                       (S754_finite false (int_mantissa k) (digits k - 53)))
             = Some (cond_Zopp s (Z.rem (Zpos z) (Zpos k)))).
  { intros s z Hz. unfold rem.
    pose proof (digits_le_53 z ltac:(lia)). pose proof (digits_le_53 k ltac:(lia)).
    pose proof (digits_pos z). pose proof (digits_pos k).
    set (e := Z.min (digits z - 53) (digits k - 53)).
    assert (He : e <= 0) by (unfold e; lia).
    assert (Hscale : forall x : positive, digits x <= 53 -> e <= digits x - 53 ->
               Zpos (int_mantissa x) * 2 ^ (digits x - 53 - e) = Zpos x * 2 ^ (- e)).
    { intros x Hx Hex. rewrite int_mantissa_eq by done.
      rewrite <- Z.mul_assoc, <- Z.pow_add_r by lia. f_equal. f_equal. lia. }
    rewrite !Hscale by (unfold e; lia).
    pose proof (Z.pow_pos_nonneg 2 (- e) ltac:(lia) ltac:(lia)) as Hpow.
    rewrite Z.mul_rem_distr_r by lia.
    pose proof (Z.rem_bound_pos (Zpos z) (Zpos k) ltac:(lia) ltac:(lia)) as [Hr0 Hr1].
    destruct (Z.eq_dec (Z.rem (Zpos z) (Zpos k)) 0) as [->|Hne].
    - by destruct s.
    - assert (Hnorm : binary_normalize prec emax
                        (cond_Zopp s (Z.rem (Zpos z) (Zpos k) * 2 ^ (- e))) e s
                      = of_scaled (cond_Zopp s (Z.rem (Zpos z) (Zpos k)) * 2 ^ (- e)) e).
      { unfold of_scaled, binary_normalize.
        replace (cond_Zopp s (Z.rem (Zpos z) (Zpos k)) * 2 ^ (- e))
          with (cond_Zopp s (Z.rem (Zpos z) (Zpos k) * 2 ^ (- e)))
          by (destruct s; simpl; lia).
        destruct (cond_Zopp s (Z.rem (Zpos z) (Zpos k) * 2 ^ (- e))) eqn:E; [|done|done].
        destruct s; simpl in E; lia. }
      rewrite Hnorm, of_scaled_int_signed by (destruct s; simpl; lia).
      apply to_Z_of_Z_signed. destruct s; simpl; lia. }
  rewrite (of_Z_pos k) by lia.
  destruct t as [|t|t].
  - done.
  - rewrite of_Z_pos by lia. by rewrite Hcore by lia.
  - rewrite of_Z_neg by lia. rewrite Hcore by lia. f_equal. simpl.
    change (Zneg t) with (- Zpos t). by rewrite Z.rem_opp_l by lia.
Qed.

(** Comparing integers as numbers. *)
Lemma compare_of_Z_pos (a b : positive) :
  Zpos a < 2 ^ 53 -> Zpos b < 2 ^ 53 ->
  match digits a - 53 ?= digits b - 53 with
  | Lt => Lt
  | Gt => Gt
  | Eq => Pos.compare_cont Eq (int_mantissa a) (int_mantissa b)
  end = (Zpos a ?= Zpos b).
Proof.
  intros Ha Hb.
  pose proof (digits_le_53 a Ha). pose proof (digits_le_53 b Hb).
  pose proof (digits_bounds a) as [Alo Ahi]. pose proof (digits_bounds b) as [Blo Bhi].
  destruct (Z.compare_spec (digits a - 53) (digits b - 53)) as [Heq|Hlt|Hgt].
  - change (Pos.compare_cont Eq (int_mantissa a) (int_mantissa b))
      with (Zpos (int_mantissa a) ?= Zpos (int_mantissa b)).
    rewrite !int_mantissa_eq by done.
    replace (digits b) with (digits a) by lia.
    pose proof (Z.pow_pos_nonneg 2 (53 - digits a) ltac:(lia) ltac:(lia)).
    destruct (Z.compare_spec (Zpos a) (Zpos b)) as [E|E|E];
      [apply Z.compare_eq_iff | apply Z.compare_lt_iff | apply Z.compare_gt_iff]; nia.
  - symmetry. apply Z.compare_lt_iff.
    assert (2 ^ digits a <= 2 ^ (digits b - 1)) by (apply Z.pow_le_mono_r; lia). lia.
  - symmetry. apply Z.compare_gt_iff.
    assert (2 ^ digits b <= 2 ^ (digits a - 1)) by (apply Z.pow_le_mono_r; lia). lia.
Qed.

Lemma ge_of_Z d k :
  - 2 ^ 53 < d < 2 ^ 53 -> 0 <= k < 2 ^ 53 ->
  Number.ge (of_Z d) (of_Z k) = (k <=? d).
Proof.
  intros Hd Hk. unfold Number.ge, SFleb.
  destruct k as [|k|k]; [| |lia].
  - destruct d as [|d|d]; [done | |].
    + by rewrite of_Z_pos by lia.
    + by rewrite of_Z_neg by lia.
  - rewrite (of_Z_pos k) by lia.
    destruct d as [|d|d]; [done | |].
    + rewrite of_Z_pos by lia. unfold SFcompare.
      rewrite compare_of_Z_pos by lia. unfold Z.leb.
      by destruct (Zpos k ?= Zpos d).
    + by rewrite of_Z_neg by lia.
Qed.

End SignedIntegers.

(** ** Construction *)

Lemma ToIndex_throws_RangeError x e : ToIndex x = Throw e -> e = RangeError.
Proof.
  unfold ToIndex. destruct x as [s|s| |s m e']; try discriminate.
  - congruence.
  - destruct (_ =? 0); [discriminate|].
    destruct (s || _); [congruence | discriminate].
Qed.

Lemma ToIndex_of_Z n : 1 <= n < 2 ^ 53 -> ToIndex (of_Z n) = Normal (Z.to_nat n).
Proof.
  intros Hn. destruct n as [|z|z]; [lia| |lia].
  rewrite of_Z_pos by lia. unfold ToIndex.
  pose proof (digits_le_53 z ltac:(lia)) as Hd. pose proof (digits_pos z).
  rewrite int_mantissa_eq by done.
  assert (Hmag : (if 0 <=? digits z - 53
                  then Zpos z * 2 ^ (53 - digits z) * 2 ^ (digits z - 53)
                  else Zpos z * 2 ^ (53 - digits z) / 2 ^ (- (digits z - 53))) = Zpos z).
  { destruct (Z.leb_spec 0 (digits z - 53)).
    - replace (digits z - 53) with 0 by lia. replace (53 - digits z) with 0 by lia. lia.
    - replace (- (digits z - 53)) with (53 - digits z) by lia.
      apply Z.div_mul, Z.pow_nonzero; lia. }
  rewrite Hmag. simpl.
  by destruct (Z.leb_spec (2 ^ 53) (Zpos z)); [lia|].
Qed.

(** [ToIndex] of an integer: a negative one is rejected. *)
Lemma ToIndex_of_Z_signed z :
  - 2 ^ 53 < z < 2 ^ 53 ->
  ToIndex (of_Z z) = if z <? 0 then Throw RangeError else Normal (Z.to_nat z).
Proof.
  intros Hz. destruct z as [|z|z]; [done | by apply ToIndex_of_Z; lia |].
  rewrite of_Z_neg by lia. unfold ToIndex.
  pose proof (digits_le_53 z ltac:(lia)) as Hd. pose proof (digits_pos z).
  rewrite int_mantissa_eq by done.
  assert (Hmag : (if 0 <=? digits z - 53
                  then Zpos z * 2 ^ (53 - digits z) * 2 ^ (digits z - 53)
                  else Zpos z * 2 ^ (53 - digits z) / 2 ^ (- (digits z - 53))) = Zpos z).
  { destruct (Z.leb_spec 0 (digits z - 53)).
    - replace (digits z - 53) with 0 by lia. replace (53 - digits z) with 0 by lia. lia.
    - replace (- (digits z - 53)) with (53 - digits z) by lia.
      apply Z.div_mul, Z.pow_nonzero; lia. }
  by rewrite Hmag.
Qed.

Lemma construct_Float32Array_inv allocates x :
  match construct_Float32Array allocates x with
  | Normal a =>
      exists n, ToIndex x = Normal n /\ 4 * Z.of_nat n <= 2 ^ 53 - 1
                /\ allocates n = true /\ a = new_Float32Array n
  | Throw e =>
      e = RangeError
      /\ (ToIndex x = Throw RangeError
          \/ exists n, ToIndex x = Normal n
                       /\ (2 ^ 53 - 1 < 4 * Z.of_nat n \/ allocates n = false))
  end.
Proof.
  unfold construct_Float32Array. destruct (ToIndex x) as [n|e] eqn:E.
  - destruct (Z.leb_spec (4 * Z.of_nat n) (2 ^ 53 - 1)) as [Hle|Hgt]; simpl.
    + destruct (allocates n) eqn:Ea.
      * by exists n.
      * split; [done|]. right. exists n. auto.
    + split; [done|]. right. exists n. auto.
  - apply ToIndex_throws_RangeError in E as Ee. subst e. auto.
Qed.

(** A buffer without slots ignores every write and reads [undefined] at
    every depth, whatever its cursor is. *)
Lemma empty_ring_ignores_cursor (dev : bool) (cursor cursor' : Z) (depth : Z) (v : number) :
  getReverse dev depth {| elements := []; _lastSampleI := cursor |}
  = getReverse dev depth {| elements := []; _lastSampleI := cursor' |}
  /\ elements (push v {| elements := []; _lastSampleI := cursor |}) = [].
Proof.
  split; [reflexivity|]. unfold push, typed_set. simpl.
  by destruct (0 <=? _).
Qed.

(** C6 (as amended).  Construction validates no duration and never fails
    with a [ConfigurationError].  The [maxSmoothingWindowLength] given to
    the node is ignored.  The only failure is the [RangeError] of creating
    the typed array of [round(smoothingWindowLength * sampleRate)] elements:
    it is thrown exactly when [ToIndex] rejects that length, when its 4
    bytes for each element exceed 2^53 - 1, or when the host does not
    allocate the buffer; for a length that is an integer of magnitude below
    2^53, exactly when the length is negative, exceeds (2^53 - 1) / 4, or
    is not allocated.  In every other case construction returns a processor
    whose ring buffer has that many slots, all zero, with the cursor on the
    last one, and whose running sum is 0. *)
Theorem construction_validates_nothing (sampleRate maxLength maxLength' length0 : number)
        (allocates : nat -> bool) (keepAlive0 : bool) :
  let bufferLength := windowLengthNumSecondsToSamples sampleRate length0 in
  let construction :=
    new_VolumeFilterNode sampleRate allocates maxLength length0 keepAlive0 in
  construction = new_VolumeFilterNode sampleRate allocates maxLength' length0 keepAlive0
  /\ (forall e, construction = Throw e -> e = RangeError)
  /\ (throws construction = true <->
      ToIndex bufferLength = Throw RangeError
      \/ exists n, ToIndex bufferLength = Normal n
                   /\ (2 ^ 53 - 1 < 4 * Z.of_nat n \/ allocates n = false))
  /\ (forall n, ToIndex bufferLength = Normal n ->
        4 * Z.of_nat n <= 2 ^ 53 - 1 -> allocates n = true ->
        exists p, construction = Normal p
                  /\ elements (_sampleSquaresRingBuffer p) = new_Float32Array n
                  /\ (is_nan bufferLength = false ->
                      _sampleSquaresRingBuffer p = new_SingleChannelRingBuffer n)
                  /\ _currWindowSquaresSum p = pzero
                  /\ maxSmoothingWindowLength (_options p) = length0)
  /\ (forall z, - 2 ^ 53 < z < 2 ^ 53 -> bufferLength = of_Z z ->
        (throws construction = true <->
         z < 0 \/ 2 ^ 53 - 1 < 4 * z \/ allocates (Z.to_nat z) = false)).
Proof.
  intros bufferLength construction. split; [reflexivity|].
  assert (Hint : forall z, - 2 ^ 53 < z < 2 ^ 53 -> bufferLength = of_Z z ->
            ((ToIndex bufferLength = Throw RangeError
              \/ exists n, ToIndex bufferLength = Normal n
                           /\ (2 ^ 53 - 1 < 4 * Z.of_nat n \/ allocates n = false))
             <-> z < 0 \/ 2 ^ 53 - 1 < 4 * z \/ allocates (Z.to_nat z) = false)).
  { intros z Hz ->. rewrite ToIndex_of_Z_signed by done.
    destruct (Z.ltb_spec z 0) as [Hneg|Hpos].
    - split; [by left | by left].
    - split.
      + intros [[=]|(n & [= <-] & Hbad)]. right. rewrite Z2Nat.id in Hbad by done. exact Hbad.
      + intros [?|Hbad]; [lia|]. right. exists (Z.to_nat z).
        split; [done|]. by rewrite Z2Nat.id by done. }
  unfold construction, new_VolumeFilterNode, new_VolumeFilterProcessor,
    construct_SingleChannelRingBuffer.
  cbn [VolumeFilterNode_options processorOptions parameterData_smoothingWindowLength
         maxSmoothingWindowLength mbind option_bind default].
  fold bufferLength.
  pose proof (construct_Float32Array_inv allocates bufferLength) as Hinv.
  destruct (construct_Float32Array allocates bufferLength) as [a|e].
  - destruct Hinv as (n & Hn & Hle & Ha & ->).
    split; [discriminate|]. split.
    + split; [discriminate|]. rewrite Hn.
      intros [[=]|(n' & [= <-] & [Hgt|Hna])]; [lia | congruence].
    + split.
      * intros n' Hn' _ _. assert (n' = n) as -> by congruence.
        eexists. split; [reflexivity|]. cbn [_sampleSquaresRingBuffer elements].
        split; [reflexivity|]. split; [|done].
        intros _. unfold new_SingleChannelRingBuffer.
        by rewrite length_new_Float32Array.
      * intros z Hz Hbuf. rewrite <- (Hint z Hz Hbuf). split; [discriminate|].
        rewrite Hn. intros [[=]|(n' & [= <-] & [Hgt|Hna])]; [lia | congruence].
  - destruct Hinv as (-> & Hcause).
    split; [by intros e [= <-]|]. split; [done|]. split.
    + intros n Hn Hle Ha. destruct Hcause as [Ht|(n' & Hn' & Hbad)]; [congruence|].
      assert (n' = n) as -> by congruence. destruct Hbad; [lia | congruence].
    + intros z Hz Hbuf. rewrite <- (Hint z Hz Hbuf). done.
Qed.

Lemma construction_validates_nothing_witness :
  exists p, new_VolumeFilterNode (of_Z 48000) (host_with_limit (2 ^ 32))
              (of_decimal 2 2) (of_decimal 2 2) true = Normal p
            /\ _sampleSquaresRingBuffer p = new_SingleChannelRingBuffer 960.
Proof.
  destruct (construction_validates_nothing (of_Z 48000) (of_decimal 2 2) (of_decimal 2 2)
              (of_decimal 2 2) (host_with_limit (2 ^ 32)) true) as (_ & _ & _ & H & _).
  destruct (H 960%nat ltac:(vm_compute; reflexivity) ltac:(lia)
              ltac:(vm_compute; reflexivity)) as (p & Hp & _ & Hring & _).
  exists p. split; [exact Hp | exact (Hring ltac:(vm_compute; reflexivity))].
Defined.

(** C6, as the specification states it: at 48 kHz, on a host that allocates
    typed arrays of up to 2^32 elements, construction with an initial window
    length of 0.03 s and a maximal window length of 0.02 s does not fail; it
    gives a processor whose ring buffer has 1440 slots.  A window length of
    0 is accepted too, with an empty ring buffer.  A window length of -1 s
    fails, with a [RangeError]. *)
Lemma construction_accepts_longer_initial_window :
  (exists p, new_VolumeFilterNode (of_Z 48000) (host_with_limit (2 ^ 32))
               (of_decimal 2 2) (of_decimal 3 2) true = Normal p
             /\ rb_length (_sampleSquaresRingBuffer p) = 1440)
  /\ (exists p, new_VolumeFilterNode (of_Z 48000) (host_with_limit (2 ^ 32))
                  (of_decimal 2 2) pzero true = Normal p
                /\ rb_length (_sampleSquaresRingBuffer p) = 0)
  /\ new_VolumeFilterNode (of_Z 48000) (host_with_limit (2 ^ 32))
       (of_decimal 2 2) (of_Z (-1)) true = Throw RangeError.
Proof.
  split; [|split; [|vm_compute; reflexivity]];
    eexists; (split; [vm_compute; reflexivity|]); vm_compute; reflexivity.
Qed.

(** ** The index arithmetic of [getReverse]

    On a buffer of fewer than 2^53 slots, at an integer depth above
    [_lastSampleI + length - 2^53] and below 2^53, every operand and every
    result of the index expression is an integer of magnitude below 2^53,
    and every operation is exact: the binary64 evaluation reads the slot
    that the integer evaluation reads.  A [Float32Array] has at most
    2^53 - 1 bytes, so fewer than 2^51 slots: the range includes every depth
    of magnitude up to 2^52. *)

Lemma getReverse_binary64_exact (dev : bool) (b : SingleChannelRingBuffer) (depth : Z) :
  0 <= _lastSampleI b < rb_length b -> rb_length b < 2 ^ 53 ->
  _lastSampleI b + rb_length b - 2 ^ 53 < depth < 2 ^ 53 ->
  getReverse_binary64 dev (of_Z depth) b = getReverse dev depth b
  /\ getReverse_number dev (of_Z depth) b = getReverse dev depth b.
Proof.
  intros Hc Hk Hd.
  assert (2 ^ 53 = 9007199254740992) by reflexivity.
  split.
  - unfold getReverse_binary64, getReverse, typed_get_number, js_rem.
    rewrite ge_of_Z by lia.
    destruct (dev && (rb_length b <=? depth)); [done|].
    rewrite sub_of_Z_signed, add_of_Z_signed, to_Z_rem_of_Z by lia.
    by destruct (Z.eqb_spec (rb_length b) 0); [lia|].
  - unfold getReverse_number. by rewrite to_Z_of_Z_signed by lia.
Qed.

(** C10 (as amended).  In production builds [getReverse] never throws, for
    every depth.  On a buffer of [k > 0] slots with the cursor in [0, k),
    and for an integer depth in the range where the index arithmetic of
    binary64 numbers is exact, [_lastSampleI + k - 2^53 < depth < 2^53]: for
    [depth <= _lastSampleI + k] it returns the element at index
    [(_lastSampleI - depth + k) mod k], so for [k <= depth] in that range it
    wraps around silently; for a larger depth the remainder computed by [%]
    is not positive, and the call returns the element of slot 0 when
    [depth - _lastSampleI] is a multiple of [k] and [undefined] otherwise. *)
Theorem getReverse_production (b : SingleChannelRingBuffer) :
  (forall depth : number, throws (getReverse_binary64 false depth b) = false)
  /\ (rb_valid b -> rb_length b < 2 ^ 53 ->
      forall depth : Z, _lastSampleI b + rb_length b - 2 ^ 53 < depth < 2 ^ 53 ->
        getReverse_binary64 false (of_Z depth) b = getReverse false depth b
        /\ (depth <= _lastSampleI b + rb_length b ->
            exists x, elements b !! Z.to_nat (slot_of b depth) = Some x
                      /\ getReverse_binary64 false (of_Z depth) b = Normal (Some x))
        /\ (_lastSampleI b + rb_length b < depth ->
            getReverse_binary64 false (of_Z depth) b
            = Normal (if (depth - _lastSampleI b) mod rb_length b =? 0
                      then elements b !! 0%nat else None))).
Proof.
  split; [done|]. intros Hb Hk depth Hdepth.
  destruct (getReverse_binary64_exact false b depth Hb Hk Hdepth) as [-> _].
  split; [reflexivity|]. destruct Hb as [Hlo Hhi].
  unfold getReverse, js_rem. simpl.
  destruct (Z.eqb_spec (rb_length b) 0) as [|_]; [lia|].
  split.
  - intros Hd. rewrite Z.rem_mod_nonneg by lia. fold (slot_of b depth).
    pose proof (slot_of_range b depth ltac:(lia)) as [Hs0 Hs1].
    unfold typed_get. destruct (Z.leb_spec 0 (slot_of b depth)); [|lia].
    destruct (lookup_lt_is_Some_2 (elements b) (Z.to_nat (slot_of b depth))) as [x Hx].
    { unfold rb_length in Hs1. lia. }
    exists x. by rewrite Hx.
  - intros Hd. f_equal.
    replace (_lastSampleI b - depth + rb_length b)
      with (- (depth - _lastSampleI b - rb_length b)) by lia.
    rewrite Z.rem_opp_l by lia.
    rewrite Z.rem_mod_nonneg by lia.
    replace (depth - _lastSampleI b - rb_length b)
      with (depth - _lastSampleI b + (-1) * rb_length b) by lia.
    rewrite Z.mod_add by lia.
    pose proof (Z.mod_pos_bound (depth - _lastSampleI b) (rb_length b) ltac:(lia)) as [Hm0 Hm1].
    unfold typed_get.
    destruct (Z.eqb_spec ((depth - _lastSampleI b) mod rb_length b) 0) as [E|E].
    + by rewrite E.
    + by destruct (Z.leb_spec 0 (- ((depth - _lastSampleI b) mod rb_length b))); [lia|].
Qed.

Lemma getReverse_production_witness :
  exists x,
    elements (push_all [of_Z 1; of_Z 2; of_Z 3; of_Z 4] (new_SingleChannelRingBuffer 4))
      !! 2%nat = Some x
    /\ getReverse_binary64 false (of_Z 5)
         (push_all [of_Z 1; of_Z 2; of_Z 3; of_Z 4] (new_SingleChannelRingBuffer 4))
       = Normal (Some x).
Proof.
  pose proof (getReverse_production
                (push_all [of_Z 1; of_Z 2; of_Z 3; of_Z 4] (new_SingleChannelRingBuffer 4)))
    as [_ H].
  destruct (H (rb_valid_push_all _ _ (rb_valid_new 4 ltac:(lia)))
              ltac:(vm_compute; reflexivity)
              5 ltac:(vm_compute; split; reflexivity)) as (_ & Hwrap & _).
  exact (Hwrap ltac:(vm_compute; discriminate)).
Defined.

(** C10, as the specification states it: beyond [_lastSampleI + k] the call
    does not return a value of the buffer.  On a buffer of capacity 4 that
    holds 1, 2, 3, 4 (cursor 3), [getReverse(8)] computes
    [(3 - 8 + 4) % 4 = -1] and returns [undefined].  And where the binary64
    operations round, the index is not the one of the formula: at depth
    [-2^53 + 6] the sum [3 - depth + 4] is [2^53 + 1], which rounds to
    [2^53]; the formula gives slot 1, and the call reads slot 0.  At depth
    [2^60] the formula gives [undefined], and the call reads slot 0. *)
Lemma getReverse_production_undefined :
  let b := push_all [of_Z 1; of_Z 2; of_Z 3; of_Z 4] (new_SingleChannelRingBuffer 4) in
  getReverse_binary64 false (of_Z 8) b = Normal None
  /\ getReverse false 8 b = Normal None
  /\ elements b !! Z.to_nat (slot_of b (- 2 ^ 53 + 6)) = Some (of_Z 2)
  /\ getReverse_binary64 false (of_Z (- 2 ^ 53 + 6)) b = Normal (Some (of_Z 1))
  /\ getReverse false (2 ^ 60) b = Normal None
  /\ getReverse_binary64 false (of_Z (2 ^ 60)) b = Normal (Some (of_Z 1)).
Proof. vm_compute. repeat split. Qed.

(** ** Roundings are never [NaN] *)

Section Rounding.

Lemma iter_pos_invariant {A} (P : A -> Prop) (f : A -> A) :
  (forall x, P x -> P (f x)) ->
  forall p x, P x -> P (SpecFloat.iter_pos f p x).
Proof.
  intros Hf. induction p as [p IH|p IH|]; intros x Hx; simpl; auto.
Qed.

Lemma shr_1_nonneg mrs : 0 <= shr_m mrs -> 0 <= shr_m (shr_1 mrs).
Proof.
  destruct mrs as [m r s]. simpl.
  destruct m as [|[q|q|]|q]; simpl; lia.
Qed.

Lemma shr_fexp_nonneg p em m e l :
  0 <= m -> 0 <= shr_m (shr_fexp p em m e l).1.
Proof.
  intros Hm. unfold shr_fexp, shr.
  assert (H0 : 0 <= shr_m (shr_record_of_loc m l)) by (by destruct l as [|[]]).
  destruct (fexp p em (Zdigits2 m + e) - e) as [|q|q]; simpl; try done.
  by apply (iter_pos_invariant (fun mrs => 0 <= shr_m mrs)), H0; apply shr_1_nonneg.
Qed.

Lemma round_nearest_even_nonneg m l : 0 <= m -> 0 <= round_nearest_even m l.
Proof.
  intros Hm. destruct l as [|[]]; simpl; try lia.
  destruct (Z.even m); lia.
Qed.

Lemma binary_round_aux_not_nan p em s mx ex lx :
  0 <= mx -> is_nan (binary_round_aux p em s mx ex lx) = false.
Proof.
  intros Hm. unfold binary_round_aux.
  pose proof (shr_fexp_nonneg p em mx ex lx Hm) as H1.
  destruct (shr_fexp p em mx ex lx) as [mrs' e']. simpl in H1.
  pose proof (shr_fexp_nonneg p em _ e' loc_Exact
                (round_nearest_even_nonneg _ (loc_of_shr_record mrs') H1)) as H2.
  destruct (shr_fexp p em _ e' loc_Exact) as [mrs'' e'']. simpl in H2.
  destruct (shr_m mrs''); [done | | lia].
  by destruct (e'' <=? em - p).
Qed.

Lemma binary_round_not_nan p em s m e : is_nan (binary_round p em s m e) = false.
Proof.
  unfold binary_round. destruct (shl_align _ _ _) as [mz ez].
  by apply binary_round_aux_not_nan.
Qed.

Lemma binary_normalize_not_nan m e szero :
  is_nan (binary_normalize prec emax m e szero) = false.
Proof. destruct m; simpl; [done | |]; apply binary_round_not_nan. Qed.

(** A number that is not [NaN] and has no minus sign is at least zero. *)
Lemma ge_pzero_of_sign x :
  is_nan x = false -> has_sign false x -> Number.ge x pzero = true.
Proof. destruct x as [s|s| |s m e]; simpl; intros ? ?; subst; done. Qed.

Lemma binary_round_aux_ge p em mx ex lx :
  0 <= mx -> Number.ge (binary_round_aux p em false mx ex lx) pzero = true.
Proof.
  intros Hm. apply ge_pzero_of_sign;
    [by apply binary_round_aux_not_nan | apply binary_round_aux_sign].
Qed.

Lemma isFinite_not_nan x : isFinite x = true -> is_nan x = false.
Proof. by destruct x. Qed.

Lemma ge_pzero_not_nan x : Number.ge x pzero = true -> is_nan x = false.
Proof. by destruct x. Qed.

Lemma sub_not_nan x y :
  is_nan x = false -> isFinite y = true -> is_nan (sub x y) = false.
Proof.
  destruct x as [sx|sx| |sx mx ex], y as [sy|sy| |sy my ey]; try done; intros _ _.
  - by destruct sx, sy.
  - apply binary_normalize_not_nan.
Qed.

Lemma add_not_nan x y :
  is_nan x = false -> isFinite y = true -> is_nan (add x y) = false.
Proof.
  destruct x as [sx|sx| |sx mx ex], y as [sy|sy| |sy my ey]; try done; intros _ _.
  - by destruct sx, sy.
  - apply binary_normalize_not_nan.
Qed.

Lemma isFinite_Math_fround x : isFinite (Math_fround x) = true -> isFinite x = true.
Proof. by destruct x. Qed.

(** The clamp: a sum that is not [NaN] is at least zero afterwards. *)
Lemma Math_max_ge x : is_nan x = false -> Number.ge (Math_max x (of_Z 0)) pzero = true.
Proof. by destruct x as [[]|[]| |[] m e]. Qed.

Lemma div_ge x (my : positive) ey :
  Number.ge x pzero = true ->
  Number.ge (div x (S754_finite false my ey)) pzero = true.
Proof.
  destruct x as [s|[]| |[] m e]; try done; intros _.
  unfold div, SFdiv, SFdiv_core_binary.
  set (m' := match _ - _ - _ with Z0 => Zpos m | Zpos _ => _ | Zneg _ => 0 end).
  assert (Hm' : 0 <= m').
  { unfold m'. destruct (_ - _ - _); [lia | | lia]. by apply Z.shiftl_nonneg. }
  assert (Hq : 0 <= (Z.div_eucl m' (Zpos my)).1) by (apply Z.div_pos; lia).
  destruct (Z.div_eucl m' (Zpos my)) as [q r]. by apply binary_round_aux_ge.
Qed.

Lemma Math_sqrt_ge x : Number.ge x pzero = true -> Number.ge (Math_sqrt x) pzero = true.
Proof.
  destruct x as [s|[]| |[] m e]; try done; intros _.
  unfold Math_sqrt, SFsqrt, SFsqrt_core_binary.
  set (m' := match _ - _ with Z0 => Zpos m | Zpos _ => _ | Zneg _ => 0 end).
  pose proof (Z.sqrtrem_sqrt m') as Hq. pose proof (Z.sqrt_nonneg m').
  destruct (Z.sqrtrem m') as [q r]. simpl in Hq. subst q.
  by apply binary_round_aux_ge.
Qed.

Lemma Math_fround_ge x : Number.ge x pzero = true -> Number.ge (Math_fround x) pzero = true.
Proof.
  destruct x as [s|[]| |[] m e]; try done; intros _. unfold Math_fround.
  pose proof (binary_round_sign 24 128 false m e) as Hs.
  pose proof (binary_round_not_nan 24 128 false m e) as Hn.
  destruct (binary_round 24 128 false m e) as [s'|s'| |s' m' e'];
    simpl in Hs; subst; try done.
  apply ge_pzero_of_sign; [apply binary_round_not_nan | apply binary_round_sign].
Qed.

End Rounding.

(** ** Non-negativity without [NaN] *)

Section NoNaN.

Variable dev : bool.

(** Every slot of the new array is as before, or holds a number that is at
    least zero. *)
Lemma typed_set_ge a i x (j : nat) v :
  Number.ge x pzero = true ->
  typed_set a i x !! j = Some v -> a !! j = Some v \/ Number.ge v pzero = true.
Proof.
  intros Hx. unfold typed_set. destruct (0 <=? i); [|by left].
  destruct (decide (Z.to_nat i = j)) as [<-|Hne].
  - intros Hv. apply list_lookup_insert_Some in Hv as [(_ & <- & _)|[? _]]; [|done].
    right. by apply Math_fround_ge.
  - rewrite list_lookup_insert_ne by done. by left.
Qed.

(** One sample step on a state without [NaN] and [Infinity]: the window
    fits the buffer, the buffer holds finite values, and the mean square of
    the sample is a finite binary32 value.  The step does not throw, the
    running sum and the output are at least zero, and the state is again
    of this kind. *)
Lemma process_sample_ge input (n : Z) sampleI st :
  rb_valid (ls_ring st) -> 1 <= n <= rb_length (ls_ring st) -> n < 2 ^ 53 ->
  Forall (fun x => isFinite x = true) (elements (ls_ring st)) ->
  Number.ge (ls_sum st) pzero = true ->
  isFinite (Math_fround (allChannelsSampleMeanSquare input sampleI)) = true ->
  exists st',
    process_sample dev input (of_Z n) sampleI st = Normal st'
    /\ rb_valid (ls_ring st')
    /\ rb_length (ls_ring st') = rb_length (ls_ring st)
    /\ Forall (fun x => isFinite x = true) (elements (ls_ring st'))
    /\ Number.ge (ls_sum st') pzero = true
    /\ (forall (j : nat) v, ls_output st' !! j = Some v ->
          ls_output st !! j = Some v \/ Number.ge v pzero = true)
    /\ (forall v, (sampleI < length (ls_output st))%nat ->
          ls_output st' !! sampleI = Some v -> Number.ge v pzero = true).
Proof.
  intros Hb Hn Hn53 Hring Hsum Hms.
  unfold process_sample, getReverse_number.
  fold (allChannelsSampleMeanSquare input sampleI).
  set (ms := allChannelsSampleMeanSquare input sampleI) in *.
  rewrite sub_of_Z, to_Z_of_Z by lia.
  rewrite getReverse_slot by (done || lia).
  pose proof (slot_of_range (ls_ring st) (n - 1) ltac:(lia)) as [Hs0 Hs1].
  destruct (lookup_lt_is_Some_2 (elements (ls_ring st))
              (Z.to_nat (slot_of (ls_ring st) (n - 1)))) as [x Hx].
  { unfold rb_length in Hs1. lia. }
  assert (Hget : typed_get (elements (ls_ring st)) (slot_of (ls_ring st) (n - 1)) = Some x).
  { unfold typed_get. by destruct (Z.leb_spec 0 (slot_of (ls_ring st) (n - 1))); [|lia]. }
  rewrite Hget. cbn [of_value].
  assert (Hxfin : isFinite x = true)
    by exact (proj1 (Forall_lookup _ _) Hring _ _ Hx).
  set (sum := Math_max (add (sub (ls_sum st) x) ms) (of_Z 0)).
  assert (Hsum' : Number.ge sum pzero = true).
  { apply Math_max_ge, add_not_nan; [|by apply isFinite_Math_fround].
    apply sub_not_nan; [by apply ge_pzero_not_nan | done]. }
  assert (Hvol : Number.ge (Math_sqrt (div sum (of_Z n))) pzero = true).
  { destruct n as [|z|z]; [lia| |lia]. rewrite of_Z_pos by lia.
    by apply Math_sqrt_ge, div_ge. }
  eexists. split; [reflexivity|]. cbn [ls_ring ls_sum ls_output].
  split; [exact (rb_valid_push _ _ Hb)|]. split; [apply rb_length_push|].
  split; [|split; [exact Hsum'|split]].
  - rewrite elements_push by done. by apply Forall_insert.
  - intros j v. by apply typed_set_ge.
  - intros v Hi. unfold typed_set.
    destruct (Z.leb_spec 0 (Z.of_nat sampleI)); [|lia].
    rewrite Nat2Z.id, list_lookup_insert_eq by done.
    intros [= <-]. by apply Math_fround_ge.
Qed.

Lemma process_samples_ge input (n : Z) sampleIs st :
  rb_valid (ls_ring st) -> 1 <= n <= rb_length (ls_ring st) -> n < 2 ^ 53 ->
  Forall (fun x => isFinite x = true) (elements (ls_ring st)) ->
  Number.ge (ls_sum st) pzero = true ->
  forallb (fun sampleI => isFinite (Math_fround (allChannelsSampleMeanSquare input sampleI)))
          sampleIs = true ->
  exists st',
    process_samples dev input (of_Z n) sampleIs st = (st', Normal tt)
    /\ rb_valid (ls_ring st')
    /\ rb_length (ls_ring st') = rb_length (ls_ring st)
    /\ Forall (fun x => isFinite x = true) (elements (ls_ring st'))
    /\ Number.ge (ls_sum st') pzero = true
    /\ (forall (j : nat) v, ls_output st' !! j = Some v ->
          ls_output st !! j = Some v \/ Number.ge v pzero = true).
Proof.
  revert st. induction sampleIs as [|i rest IH]; intros st Hb Hn Hn53 Hring Hsum Hms.
  - exists st. simpl. auto 10.
  - cbn [forallb] in Hms. apply andb_true_iff in Hms as [Hi Hrest].
    destruct (process_sample_ge input n i st Hb Hn Hn53 Hring Hsum Hi)
      as (st1 & E1 & Hb1 & Hlen1 & Hring1 & Hsum1 & Hout1 & _).
    destruct (IH st1 Hb1 ltac:(lia) Hn53 Hring1 Hsum1 Hrest)
      as (st' & E' & Hb' & Hlen' & Hring' & Hsum' & Hout').
    exists st'. cbn [process_samples]. rewrite E1.
    split; [exact E'|]. split; [exact Hb'|]. split; [lia|].
    split; [exact Hring'|]. split; [exact Hsum'|].
    intros j v Hv. destruct (Hout' j v Hv) as [H|H]; [|by right]. by apply Hout1.
Qed.

End NoNaN.

Section UnlessNaN.

Variable dev : bool.

(** A number above zero and below [Infinity]. *)
Lemma positive_finite n :
  isFinite n = true -> Number.lt pzero n = true -> exists m e, n = S754_finite false m e.
Proof. destruct n as [s|s| |[] m e]; try done. by eauto. Qed.

(** One sample step in any state: a [NaN] sum stays [NaN]; a sum that is
    not [NaN] afterwards is at least zero, and so is the output the step
    writes, the window having a positive finite number of samples. *)
Lemma process_sample_unless_NaN input n sampleI st st' :
  process_sample dev input n sampleI st = Normal st' ->
  (is_nan (ls_sum st) = true -> is_nan (ls_sum st') = true)
  /\ (is_nan (ls_sum st') = false ->
      Number.ge (ls_sum st') pzero = true
      /\ (isFinite n = true -> Number.lt pzero n = true ->
          forall (j : nat) v, ls_output st' !! j = Some v ->
            ls_output st !! j = Some v \/ Number.ge v pzero = true)).
Proof.
  unfold process_sample.
  destruct (getReverse_number _ _ _) as [last|]; [|discriminate].
  intros [= <-]. cbn [ls_sum ls_output]. split.
  - by destruct (ls_sum st).
  - set (sum := Math_max _ _). intros Hsum.
    assert (Hge : Number.ge sum pzero = true).
    { revert Hsum. unfold sum. by destruct (add _ _) as [[]|[]| |[] m e]. }
    split; [exact Hge|]. intros Hfin Hpos j v.
    destruct (positive_finite n Hfin Hpos) as (m & e & ->).
    by apply typed_set_ge, Math_sqrt_ge, div_ge.
Qed.

Lemma process_samples_unless_NaN input n sampleIs st :
  let st' := (process_samples dev input n sampleIs st).1 in
  (is_nan (ls_sum st) = true -> is_nan (ls_sum st') = true)
  /\ (is_nan (ls_sum st') = false -> isFinite n = true -> Number.lt pzero n = true ->
      forall (j : nat) v, ls_output st' !! j = Some v ->
        ls_output st !! j = Some v \/ Number.ge v pzero = true).
Proof.
  revert st. induction sampleIs as [|i rest IH]; intros st; cbn [process_samples].
  - simpl. by auto.
  - destruct (process_sample dev input n i st) as [st1|] eqn:E; [|simpl; by auto].
    apply process_sample_unless_NaN in E as [Hnan1 Hge1].
    destruct (IH st1) as [IHnan IHge]. cbv zeta in IHnan, IHge |- *. split; [by auto|].
    intros Hsum' Hfin Hpos j v Hv.
    destruct (is_nan (ls_sum st1)) eqn:E1; [by rewrite IHnan in Hsum'|].
    destruct (IHge Hsum' Hfin Hpos j v Hv) as [H|H]; [|by right].
    destruct (Hge1 eq_refl) as [_ Hout1]. by apply Hout1.
Qed.

End UnlessNaN.

(** C1 (as amended).  The running sum and the output are never negative,
    unless they are [NaN].  For every input, after every sample step and
    over every call of [process]: the running sum is at least zero or
    [NaN]; a value written to the output channel is at least zero or [NaN],
    and it is at least zero whenever the running sum is not [NaN], the
    window having a positive finite number of samples, floating-point
    cancellation included.  The running sum is not [NaN] as long as no
    [NaN] and no [Infinity] is involved: from a state whose ring buffer
    holds finite values and whose running sum is at least zero (such as the
    state after construction), with a window of [1 <= n <= capacity]
    samples, a sample step whose mean square is a finite binary32 value
    does not throw, leaves a running sum that is at least zero and writes
    an output that is at least zero; a call of [process] on a block of such
    mean squares leaves the running sum at least zero, leaves every slot of
    the output channel as it was or at least zero, and leaves a state of
    the same kind for the next call. *)
Theorem running_sum_and_output_never_negative (dev : bool) (sampleRate : number) :
  (forall input n sampleI st st',
      process_sample dev input n sampleI st = Normal st' ->
      not_negative (ls_sum st') = true
      /\ (forall v, (sampleI < length (ls_output st))%nat ->
                    ls_output st' !! sampleI = Some v -> not_negative v = true)
      /\ (is_nan (ls_sum st') = false ->
          Number.ge (ls_sum st') pzero = true
          /\ (isFinite n = true -> Number.lt pzero n = true ->
              forall v, (sampleI < length (ls_output st))%nat ->
                        ls_output st' !! sampleI = Some v -> Number.ge v pzero = true)))
  /\ (forall g p input outputChannel parameters,
      let n := windowLengthNumSecondsToSamples sampleRate
                 (of_value (typed_get (smoothingWindowLength parameters) 0)) in
      let r := process dev sampleRate g p input outputChannel parameters in
      (not_negative (_currWindowSquaresSum p) = true ->
       not_negative (_currWindowSquaresSum (res_processor r)) = true)
      /\ written_not_negative outputChannel (res_outputChannel r)
      /\ (is_nan (_currWindowSquaresSum (res_processor r)) = false ->
          isFinite n = true -> Number.lt pzero n = true ->
          forall (j : nat) v, res_outputChannel r !! j = Some v ->
            outputChannel !! j = Some v \/ Number.ge v pzero = true))
  /\ (forall input (n : Z) sampleI st,
      rb_valid (ls_ring st) -> 1 <= n <= rb_length (ls_ring st) -> n < 2 ^ 53 ->
      Forall (fun x => isFinite x = true) (elements (ls_ring st)) ->
      Number.ge (ls_sum st) pzero = true ->
      isFinite (Math_fround (allChannelsSampleMeanSquare input sampleI)) = true ->
      exists st',
        process_sample dev input (of_Z n) sampleI st = Normal st'
        /\ Number.ge (ls_sum st') pzero = true
        /\ (forall v, (sampleI < length (ls_output st))%nat ->
                      ls_output st' !! sampleI = Some v -> Number.ge v pzero = true)
        /\ rb_valid (ls_ring st')
        /\ Forall (fun x => isFinite x = true) (elements (ls_ring st')))
  /\ (forall g p input outputChannel parameters (n : Z),
      rb_valid (_sampleSquaresRingBuffer p) ->
      1 <= n <= rb_length (_sampleSquaresRingBuffer p) -> n < 2 ^ 53 ->
      windowLengthNumSecondsToSamples sampleRate
        (of_value (typed_get (smoothingWindowLength parameters) 0)) = of_Z n ->
      Forall (fun x => isFinite x = true) (elements (_sampleSquaresRingBuffer p)) ->
      Number.ge (_currWindowSquaresSum p) pzero = true ->
      finite_mean_squares input = true ->
      let r := process dev sampleRate g p input outputChannel parameters in
      Number.ge (_currWindowSquaresSum (res_processor r)) pzero = true
      /\ (forall (j : nat) v, res_outputChannel r !! j = Some v ->
            outputChannel !! j = Some v \/ Number.ge v pzero = true)
      /\ rb_valid (_sampleSquaresRingBuffer (res_processor r))
      /\ rb_length (_sampleSquaresRingBuffer (res_processor r))
         = rb_length (_sampleSquaresRingBuffer p)
      /\ Forall (fun x => isFinite x = true)
           (elements (_sampleSquaresRingBuffer (res_processor r)))).
Proof.
  split; [|split; [|split]].
  - intros input n sampleI st st' Hstep.
    split; [|split].
    + by apply (process_sample_not_negative dev) in Hstep as [? _].
    + intros v Hi Hv. unfold process_sample in Hstep.
      destruct (getReverse_number _ _ _) as [last|]; [|discriminate].
      injection Hstep as <-. simpl in Hv. unfold typed_set in Hv.
      destruct (Z.leb_spec 0 (Z.of_nat sampleI)); [|lia].
      rewrite Nat2Z.id, list_lookup_insert_eq in Hv by done.
      injection Hv as <-. apply not_negative_Math_fround, not_negative_Math_sqrt.
    + intros Hsum'.
      pose proof (process_sample_unless_NaN dev input n sampleI st st' Hstep) as [_ H].
      destruct (H Hsum') as [Hge Hout]. split; [exact Hge|].
      intros Hfin Hpos v Hi Hv. unfold process_sample in Hstep.
      destruct (getReverse_number _ _ _) as [last|]; [|discriminate].
      injection Hstep as <-. cbn [ls_sum ls_output] in *. unfold typed_set in Hv.
      destruct (Z.leb_spec 0 (Z.of_nat sampleI)); [|lia].
      rewrite Nat2Z.id, list_lookup_insert_eq in Hv by done.
      injection Hv as <-.
      destruct (positive_finite n Hfin Hpos) as (m & e & ->).
      by apply Math_fround_ge, Math_sqrt_ge, div_ge.
  - intros g p input outputChannel parameters n r. unfold r, process. fold n.
    destruct input as [|channel0 input].
    { split; [done|]. split; [apply written_not_negative_refl | by auto]. }
    destruct (dev && _).
    { split; [done|]. split; [apply written_not_negative_refl | by auto]. }
    match goal with
    | |- context [process_samples ?d ?i ?n ?l ?st] =>
        pose proof (process_samples_not_negative d i n l st) as [H1 H2];
        pose proof (process_samples_unless_NaN d i n l st) as [_ H3];
        destruct (process_samples d i n l st) as [st' c]
    end.
    cbn [fst ls_sum ls_output res_processor res_outputChannel _currWindowSquaresSum]
      in H1, H2, H3 |- *.
    auto.
  - intros input n sampleI st Hb Hn Hn53 Hring Hsum Hms.
    destruct (process_sample_ge dev input n sampleI st Hb Hn Hn53 Hring Hsum Hms)
      as (st' & E & Hb' & _ & Hring' & Hsum' & _ & Hout').
    exists st'. auto 10.
  - intros g p input outputChannel parameters n Hb Hn Hn53 Hparam Hring Hsum Hms r.
    unfold r, process. rewrite Hparam.
    destruct input as [|channel0 input]; [by auto 10|].
    destruct (dev && _); [by auto 10|].
    destruct (process_samples_ge dev (channel0 :: input) n (seq 0 (length channel0))
                {| ls_ring := _sampleSquaresRingBuffer p;
                   ls_sum := _currWindowSquaresSum p;
                   ls_output := outputChannel |} Hb Hn Hn53 Hring Hsum Hms)
      as (st' & -> & Hb' & Hlen' & Hring' & Hsum' & Hout').
    cbn [res_processor res_outputChannel _sampleSquaresRingBuffer _currWindowSquaresSum].
    auto 10.
Qed.

Lemma running_sum_and_output_never_negative_witness :
  let p := {| _sampleSquaresRingBuffer := new_SingleChannelRingBuffer 1;
              _currWindowSquaresSum := pzero;
              _options := {| maxChannels := DEFAULT_MAX_NUM_CHANNELS;
                             maxSmoothingWindowLength := of_Z 1 |};
              keepAlive := true |} in
  let input := [[Math_fround (of_decimal 1 1); pzero]] in
  let r := process false (of_Z 1) initial_Global p input (new_Float32Array 2)
             {| smoothingWindowLength := [of_Z 1] |} in
  Number.lt (add (sub (allChannelsSampleMeanSquare input 0)
                      (Math_fround (allChannelsSampleMeanSquare input 0)))
                 (allChannelsSampleMeanSquare input 1)) pzero = true
  /\ Number.ge (_currWindowSquaresSum (res_processor r)) pzero = true
  /\ forall (j : nat) v, res_outputChannel r !! j = Some v ->
       new_Float32Array 2 !! j = Some v \/ Number.ge v pzero = true.
Proof.
  intros p input r. split; [vm_compute; reflexivity|].
  pose proof (running_sum_and_output_never_negative false (of_Z 1)) as (_ & _ & _ & H).
  specialize (H initial_Global p input (new_Float32Array 2)
                {| smoothingWindowLength := [of_Z 1] |} 1
                (rb_valid_new 1 ltac:(lia))
                ltac:(vm_compute; split; discriminate) ltac:(lia)
                ltac:(vm_compute; reflexivity)
                ltac:(repeat constructor)
                ltac:(reflexivity) ltac:(vm_compute; reflexivity)).
  cbv zeta in H. destruct H as (Hsum & Hout & _).
  split; [exact Hsum | exact Hout].
Defined.

(** C1, as the specification states it: a value written to the output
    channel need not be at least zero.  A block with a [NaN] sample makes
    the running sum [NaN], and the output with it; [NaN >= 0] is false.  An
    infinite sample does the same once it leaves the window: the sum becomes
    [Infinity - Infinity].  And with a window length of 0 s the output of a
    silent block is [sqrt(0 / 0)], which is [NaN], while the running sum
    is 0.  The processor is the one constructed at 48 kHz for a window of
    0.02 s; the blocks have one channel and 128 samples. *)
Lemma output_is_NaN_for_NaN_sample :
  new_VolumeFilterNode (of_Z 48000) (host_with_limit (2 ^ 32))
    (of_decimal 2 2) (of_decimal 2 2) true
  = Normal scenario_A_processor
  /\ (let r := process true (of_Z 48000) initial_Global scenario_A_processor
                 [NaN :: replicate 127 pzero] (new_Float32Array 128)
                 {| smoothingWindowLength := [Math_fround (of_decimal 2 2)] |} in
      res_completion r = Normal true
      /\ res_outputChannel r !! 0%nat = Some NaN
      /\ Number.ge NaN pzero = false
      /\ _currWindowSquaresSum (res_processor r) = NaN)
  /\ _currWindowSquaresSum
       (process_repeatedly true (of_Z 48000) [pinf :: replicate 127 pzero]
          {| smoothingWindowLength := [Math_fround (of_decimal 2 2)] |} 8
          scenario_A_processor)
     = NaN
  /\ (let r := process true (of_Z 48000) initial_Global scenario_A_processor
                 [replicate 128 pzero] (new_Float32Array 128)
                 {| smoothingWindowLength := [pzero] |} in
      res_completion r = Normal true
      /\ res_outputChannel r !! 0%nat = Some NaN
      /\ _currWindowSquaresSum (res_processor r) = pzero).
Proof.
  split; [vm_compute; reflexivity|]. split; [|split; [vm_compute; reflexivity|]].
  - vm_compute. repeat split.
  - vm_compute. repeat split.
Qed.

(** ** The steady state of a unit signal *)

Section SteadyState.

Variable N : nat.
Variable n : Z.
Hypothesis Hn : 1 <= n < 2 ^ 53.

Lemma steady_meanSquare (j : nat) :
  (j < N)%nat ->
  div (allChannelsSampleSquareSum [replicate N one] j) (of_Z (Z.of_nat (length [replicate N one]))) = one.
Proof.
  intros Hj. unfold allChannelsSampleSquareSum. cbn [foldl length].
  rewrite lookup_replicate_2 by done. vm_compute. reflexivity.
Qed.

Lemma steady_window_sample (j : nat) (st : WindowState) :
  (j < N)%nat -> steady n st ->
  let st' := window_sample [replicate N one] (of_Z n) (Z.to_nat (n - 1)) j st in
  steady n st' /\ ws_output st' = <[j := one]> (ws_output st).
Proof.
  intros Hj (Hsum & Hlen & Hwin). cbv zeta. unfold window_sample.
  rewrite steady_meanSquare, Hsum, (Hwin (Z.to_nat (n - 1))) by done. cbn [of_value].
  change one with (of_Z 1).
  rewrite sub_of_Z, add_of_Z by lia.
  replace (n - 1 + 1) with n by lia.
  rewrite Math_max_of_Z, div_of_Z_same by lia.
  unfold steady. cbn [ws_sum ws_window ws_output]. repeat split.
  - simpl. rewrite length_take. lia.
  - intros [|d] Hd; [done|].
    change (take (length (ws_window st) - 1) (ws_window st) !! d = Some one).
    rewrite lookup_take_lt by lia. apply Hwin. lia.
  - unfold typed_set. destruct (Z.leb_spec 0 (Z.of_nat j)); [|lia].
    by rewrite Nat2Z.id.
Qed.

Lemma steady_window_samples (j : nat) (st : WindowState) :
  (j <= N)%nat -> steady n st ->
  let st' := window_samples [replicate N one] (of_Z n) (Z.to_nat (n - 1)) (seq 0 j) st in
  steady n st'
  /\ length (ws_output st') = length (ws_output st)
  /\ forall i : nat, (i < j)%nat -> (i < length (ws_output st))%nat ->
                     ws_output st' !! i = Some one.
Proof.
  intros Hj Hst. cbv zeta. induction j as [|j IH].
  - simpl. split; [exact Hst|]. split; [reflexivity|]. intros; lia.
  - rewrite seq_S. unfold window_samples in *. rewrite foldl_snoc.
    destruct (IH ltac:(lia)) as (Hsteady & Hlen & Hout).
    set (stj := foldl _ st (seq 0 j)) in *.
    destruct (steady_window_sample j stj ltac:(lia) Hsteady) as (Hsteady' & Hout').
    split; [exact Hsteady'|]. cbn [Nat.add]. rewrite Hout', length_insert.
    split; [done|]. intros i Hi Hilen.
    destruct (decide (i = j)) as [->|Hne].
    + apply list_lookup_insert_eq. lia.
    + rewrite list_lookup_insert_ne by done. apply Hout; lia.
Qed.

End SteadyState.

(** C2.  Scenario B, the steady state of a unit signal: when the last
    [n] values of the ring buffer are all 1.0, [n] being the number of
    samples of the window, and the running sum is [n], a single-channel
    block of the constant 1.0 gives the output 1.0, exactly, at every sample;
    the running sum and the window are afterwards as before.  This holds for
    every window of [1 <= n < 2^53] samples, every capacity, every position
    of the cursor, and every block length the build accepts. *)
Theorem steady_state_unit (dev : bool) (sampleRate : number) (g : Global)
        (p : VolumeFilterProcessor) (N : nat) (outputChannel : Float32Array)
        (parameters : Parameters) (n : Z) :
  rb_valid (_sampleSquaresRingBuffer p) ->
  1 <= n <= rb_length (_sampleSquaresRingBuffer p) -> n < 2 ^ 53 ->
  windowLengthNumSecondsToSamples sampleRate
    (of_value (typed_get (smoothingWindowLength parameters) 0)) = of_Z n ->
  (forall d : nat, Z.of_nat d < n -> window (_sampleSquaresRingBuffer p) !! d = Some one) ->
  _currWindowSquaresSum p = of_Z n ->
  length outputChannel = N ->
  (dev = true -> N = SAMPLES_PER_QUANTUM) ->
  let r := process dev sampleRate g p [replicate N one] outputChannel parameters in
  res_completion r = Normal (keepAlive p)
  /\ res_outputChannel r = replicate N one
  /\ _currWindowSquaresSum (res_processor r) = of_Z n
  /\ (forall d : nat, Z.of_nat d < n ->
        window (_sampleSquaresRingBuffer (res_processor r)) !! d = Some one).
Proof.
  intros Hvalid Hnk Hn53 Hsamples Hwin Hsum Hout Hdev r.
  unfold r, process. rewrite Hsamples. cbv beta iota zeta. rewrite length_replicate.
  assert (Hcheck : dev && negb (N =? SAMPLES_PER_QUANTUM)%nat = false).
  { destruct dev; [|done]. rewrite (Hdev eq_refl). reflexivity. }
  rewrite Hcheck.
  assert (Hdepth : to_Z (sub (of_Z n) (of_Z 1)) = Some (Z.of_nat (Z.to_nat (n - 1)))).
  { rewrite sub_of_Z, to_Z_of_Z by lia. f_equal. lia. }
  destruct (process_samples_window dev [replicate N one] (of_Z n) (Z.to_nat (n - 1))
              (seq 0 N)
              {| ls_ring := _sampleSquaresRingBuffer p;
                 ls_sum := _currWindowSquaresSum p;
                 ls_output := outputChannel |} Hvalid Hdepth)
    as (st' & -> & _ & _ & Habs).
  { cbn [ls_ring]. unfold rb_length in Hnk. lia. }
  cbn [ls_ring ls_sum ls_output] in Habs.
  destruct (steady_window_samples N n ltac:(lia) N
              (window_state (_sampleSquaresRingBuffer p) (_currWindowSquaresSum p)
                            outputChannel) ltac:(lia))
    as ((Hsum' & Hlen' & Hwin') & Hlenout & Hones).
  { unfold steady, window_state. cbn [ws_sum ws_window]. repeat split.
    - exact Hsum.
    - rewrite window_length. unfold rb_length in Hnk. lia.
    - intros d Hd. apply Hwin. lia. }
  rewrite <- Habs in Hsum', Hwin', Hlenout, Hones.
  unfold window_state in Hsum', Hwin', Hlenout, Hones.
  cbn [ws_sum ws_window ws_output] in Hsum', Hwin', Hlenout, Hones.
  cbv beta iota zeta.
  unfold res_completion, res_outputChannel, res_processor.
  cbn [_currWindowSquaresSum _sampleSquaresRingBuffer].
  split; [reflexivity|]. split; [|split; [exact Hsum'|]].
  - apply list_eq. intros i. destruct (decide (i < N)%nat).
    + rewrite lookup_replicate_2 by done. apply Hones; lia.
    + rewrite !lookup_ge_None_2; [done | rewrite length_replicate; lia | lia].
  - intros d Hd. apply Hwin'. lia.
Qed.

Lemma steady_state_unit_witness :
  process_repeatedly true (of_Z 48000) [replicate 128 one]
    {| smoothingWindowLength := [Math_fround (of_decimal 2 2)] |} 8 scenario_A_processor
  = scenario_B_processor
  /\ res_outputChannel
       (process true (of_Z 48000) initial_Global scenario_B_processor
          [replicate 128 one] (new_Float32Array 128)
          {| smoothingWindowLength := [Math_fround (of_decimal 2 2)] |})
     = replicate 128 one.
Proof.
  split; [vm_compute; reflexivity|].
  assert (Hsamples : windowLengthNumSecondsToSamples (of_Z 48000)
                       (of_value (typed_get [Math_fround (of_decimal 2 2)] 0)) = of_Z 960)
    by (vm_compute; reflexivity).
  assert (Hvalid : rb_valid (_sampleSquaresRingBuffer scenario_B_processor))
    by (split; [apply Z.leb_le | apply Z.ltb_lt]; vm_compute; reflexivity).
  assert (Hwindow : window (_sampleSquaresRingBuffer scenario_B_processor)
                    = replicate 960 one)
    by (vm_compute; reflexivity).
  pose proof (steady_state_unit true (of_Z 48000) initial_Global scenario_B_processor
                128 (new_Float32Array 128)
                {| smoothingWindowLength := [Math_fround (of_decimal 2 2)] |} 960
                Hvalid ltac:(split; apply Z.leb_le; vm_compute; reflexivity)
                ltac:(lia) Hsamples) as H.
  cbv zeta in H. apply H.
  - intros d Hd. rewrite Hwindow. apply lookup_replicate_2. lia.
  - reflexivity.
  - reflexivity.
  - reflexivity.
Defined.

(** * Further properties *)

(** ** More on the ring buffer *)

(** X1.  The ring buffer keeps the last values: after any number of pushes,
    more than the capacity included, [getReverse(d)] is the binary32
    rounding of the value pushed [d] pushes before the last one, for every
    [d] below the number of pushes and below the capacity. *)
Theorem ring_keeps_last_values (dev : bool) (vals : list number)
        (b : SingleChannelRingBuffer) (d : nat) :
  rb_valid b -> (d < length vals)%nat -> (d < length (elements b))%nat ->
  getReverse dev (Z.of_nat d) (push_all vals b)
  = Normal (Math_fround <$> reverse vals !! d).
Proof.
  intros Hb. revert d.
  induction vals as [|v vals IH] using rev_ind; intros d Hd Hk; [simpl in Hd; lia|].
  rewrite length_app in Hd. simpl in Hd.
  rewrite push_all_snoc, reverse_snoc.
  pose proof (rb_valid_push_all vals b Hb) as Hvalid.
  destruct d as [|d].
  - by rewrite getReverse_push_0.
  - replace (Z.of_nat (S d)) with (Z.of_nat d + 1) by lia.
    rewrite getReverse_push_succ; [apply IH; lia | done | lia |].
    rewrite rb_length_push_all. unfold rb_length. lia.
Qed.

Lemma ring_keeps_last_values_witness :
  getReverse false 1 (push_all [one; of_Z 2; of_Z 3; of_Z 4; of_Z 5]
                        (new_SingleChannelRingBuffer 3))
  = Normal (Some (of_Z 4)).
Proof.
  exact (ring_keeps_last_values false [one; of_Z 2; of_Z 3; of_Z 4; of_Z 5]
           (new_SingleChannelRingBuffer 3) 1 (rb_valid_new 3 ltac:(lia))
           ltac:(simpl; lia) ltac:(simpl; lia)).
Defined.

(** X2.  A new ring buffer is filled with zeros: after pushing fewer values
    than its capacity, every depth at or beyond the number of pushes (and
    below the capacity) reads [+0]. *)
Theorem ring_starts_with_zeros (dev : bool) (k : nat) (vals : list number) (d : nat) :
  (length vals <= d)%nat -> (d < k)%nat ->
  getReverse dev (Z.of_nat d) (push_all vals (new_SingleChannelRingBuffer k))
  = Normal (Some pzero).
Proof.
  intros Hd Hk.
  assert (Hnew : rb_valid (new_SingleChannelRingBuffer k)) by (apply rb_valid_new; lia).
  revert d Hd Hk. induction vals as [|v vals IH] using rev_ind; intros d Hd Hk.
  - simpl. rewrite getReverse_slot; [|done|rewrite rb_length_new; lia].
    f_equal. pose proof (slot_of_range (new_SingleChannelRingBuffer k) (Z.of_nat d)) as Hs.
    rewrite rb_length_new in Hs. specialize (Hs ltac:(lia)).
    unfold typed_get. destruct (Z.leb_spec 0 (slot_of (new_SingleChannelRingBuffer k) (Z.of_nat d))); [|lia].
    simpl. apply lookup_replicate_2. lia.
  - rewrite length_app in Hd. simpl in Hd. rewrite push_all_snoc.
    destruct d as [|d]; [lia|].
    replace (Z.of_nat (S d)) with (Z.of_nat d + 1) by lia.
    rewrite getReverse_push_succ; [apply IH; lia | by apply rb_valid_push_all | lia |].
    rewrite rb_length_push_all, rb_length_new. lia.
Qed.

Lemma ring_starts_with_zeros_witness :
  getReverse true 2 (push_all [one] (new_SingleChannelRingBuffer 3)) = Normal (Some pzero).
Proof.
  exact (ring_starts_with_zeros true 3 [one] 2 ltac:(simpl; lia) ltac:(lia)).
Defined.

(** X3.  A ring buffer of capacity 0, as constructed for a window length
    that rounds to 0 samples, stays empty under [push]; in production builds
    [getReverse] returns [undefined] at every depth, and in development
    builds it throws a [RangeError] for every depth [>= 0]. *)
Lemma elements_push_all_empty vals b :
  elements b = [] -> elements (push_all vals b) = [].
Proof.
  revert b. induction vals as [|v vals IH]; intros b Hb; [done|].
  simpl. apply IH. unfold push, typed_set. simpl. rewrite Hb.
  by destruct (0 <=? _).
Qed.

Theorem empty_ring_buffer (vals : list number) (depth : Z) :
  let b := push_all vals (new_SingleChannelRingBuffer 0) in
  elements b = []
  /\ getReverse false depth b = Normal None
  /\ getReverse true depth b = (if 0 <=? depth then Throw RangeError else Normal None).
Proof.
  intros b.
  assert (He : elements b = []) by (by apply elements_push_all_empty).
  split; [done|]. unfold getReverse, js_rem, rb_length. rewrite He. simpl.
  split; reflexivity.
Qed.

(** ** More on [process] *)

Section ProcessFacts.

Variable sampleRate : number.

Lemma getReverse_number_production depth b :
  exists v, getReverse_number false depth b = Normal v.
Proof.
  unfold getReverse_number, getReverse. simpl. destruct (to_Z depth); eauto.
Qed.

Lemma process_samples_production input n sampleIs st :
  exists st', process_samples false input n sampleIs st = (st', Normal tt).
Proof.
  revert st. induction sampleIs as [|i rest IH]; intros st; simpl; [eauto|].
  unfold process_sample.
  destruct (getReverse_number_production (sub n (of_Z 1)) (ls_ring st)) as [v ->].
  apply IH.
Qed.

Lemma run_calls_production w calls :
  (run_calls false sampleRate w calls).1 = w.1.
Proof.
  revert w. induction calls as [|c calls IH]; intros w; [done|].
  unfold run_calls in *. simpl. rewrite IH. unfold run_call.
  destruct (w.2 !! call_processor c) as [p|]; [|done].
  simpl. by rewrite res_global_process.
Qed.

(** What a step of the loop keeps. *)
Lemma process_sample_keeps dev input n sampleI st st' :
  process_sample dev input n sampleI st = Normal st' ->
  length (ls_output st') = length (ls_output st)
  /\ rb_length (ls_ring st') = rb_length (ls_ring st)
  /\ (rb_valid (ls_ring st) -> rb_valid (ls_ring st'))
  /\ (forall i : nat, i <> sampleI -> ls_output st' !! i = ls_output st !! i).
Proof.
  unfold process_sample.
  destruct (getReverse_number _ _ _) as [last|]; [|discriminate].
  intros [= <-]. simpl. rewrite length_typed_set, rb_length_push.
  split; [reflexivity|]. split; [reflexivity|]. split; [apply rb_valid_push|].
  intros i Hi. unfold typed_set. destruct (0 <=? Z.of_nat sampleI); [|done].
  apply list_lookup_insert_ne. lia.
Qed.

Lemma process_samples_keeps dev input n sampleIs st :
  let st' := (process_samples dev input n sampleIs st).1 in
  length (ls_output st') = length (ls_output st)
  /\ rb_length (ls_ring st') = rb_length (ls_ring st)
  /\ (rb_valid (ls_ring st) -> rb_valid (ls_ring st'))
  /\ (forall i : nat, i ∉ sampleIs -> ls_output st' !! i = ls_output st !! i).
Proof.
  revert st. induction sampleIs as [|j rest IH]; intros st; simpl; [done|].
  destruct (process_sample dev input n j st) as [st1|] eqn:E; simpl; [|done].
  apply process_sample_keeps in E as (Hlen & Hcap & Hvalid & Hout).
  destruct (IH st1) as (IHlen & IHcap & IHvalid & IHout).
  split; [congruence|]. split; [congruence|]. split; [tauto|].
  intros i Hi. apply not_elem_of_cons in Hi as [Hij Hi].
  rewrite IHout by done. by apply Hout.
Qed.

Lemma process_keeps_ring dev g p input outputChannel parameters :
  let r := process dev sampleRate g p input outputChannel parameters in
  rb_length (_sampleSquaresRingBuffer (res_processor r))
  = rb_length (_sampleSquaresRingBuffer p)
  /\ (rb_valid (_sampleSquaresRingBuffer p) ->
      rb_valid (_sampleSquaresRingBuffer (res_processor r)))
  /\ _options (res_processor r) = _options p.
Proof.
  cbv zeta. unfold process. destruct input as [|channel0 input]; [done|].
  destruct (dev && _); [done|].
  match goal with
  | |- context [process_samples ?d ?i ?n ?l ?st] =>
      pose proof (process_samples_keeps d i n l st) as H;
      destruct (process_samples d i n l st) as [st' c]
  end.
  cbv zeta in H. simpl in H. destruct H as (_ & Hcap & Hvalid & _).
  simpl. split; [exact Hcap|]. split; [exact Hvalid | reflexivity].
Qed.

End ProcessFacts.

(** X4.  In production builds [process] never throws and never touches the
    module state: whatever the block, the output channel, the parameters and
    the state of the processor, it returns [keepAlive], and no sequence of
    calls writes to the console or sets [devErrorShown]. *)
Theorem production_never_throws_or_logs (sampleRate : number) (g : Global)
        (p : VolumeFilterProcessor) (input : list Float32Array)
        (outputChannel : Float32Array) (parameters : Parameters)
        (processors : list VolumeFilterProcessor) (calls : list Call) :
  let r := process false sampleRate g p input outputChannel parameters in
  res_completion r = Normal (keepAlive p)
  /\ res_global r = g
  /\ (run_calls false sampleRate (g, processors) calls).1 = g.
Proof.
  cbv zeta. split; [|split; [|apply (run_calls_production sampleRate (g, processors))]].
  - unfold process. destruct input as [|channel0 input]; [done|]. simpl.
    destruct (process_samples_production (channel0 :: input)
                (windowLengthNumSecondsToSamples sampleRate
                   (of_value (typed_get (smoothingWindowLength parameters) 0)))
                (seq 0 (length channel0))
                {| ls_ring := _sampleSquaresRingBuffer p;
                   ls_sum := _currWindowSquaresSum p;
                   ls_output := outputChannel |}) as [st' ->].
    done.
  - by rewrite res_global_process.
Qed.

(** X5.  In development builds a block whose first channel does not have
    128 samples makes [process] throw the error about the quantum length;
    the ring buffer, the running sum and the output channel are left as they
    were. *)
Theorem dev_rejects_other_block_lengths (sampleRate : number) (g : Global)
        (p : VolumeFilterProcessor) (channel0 : Float32Array) (rest : list Float32Array)
        (outputChannel : Float32Array) (parameters : Parameters) :
  length channel0 <> SAMPLES_PER_QUANTUM ->
  let r := process true sampleRate g p (channel0 :: rest) outputChannel parameters in
  res_completion r
  = Throw (Error "Splish-splash. Your assumptions about quantum length are trash")
  /\ res_processor r = p
  /\ res_outputChannel r = outputChannel.
Proof.
  intros Hlen. cbv zeta. unfold process.
  destruct (Nat.eqb_spec (length channel0) SAMPLES_PER_QUANTUM); [done|]. done.
Qed.

Lemma dev_rejects_other_block_lengths_witness :
  res_completion
    (process true (of_Z 48000) initial_Global scenario_A_processor
       [[one; one]] [pzero; pzero]
       {| smoothingWindowLength := [Math_fround (of_decimal 2 2)] |})
  = Throw (Error "Splish-splash. Your assumptions about quantum length are trash").
Proof.
  exact (proj1 (dev_rejects_other_block_lengths (of_Z 48000) initial_Global
                  scenario_A_processor [one; one] [] [pzero; pzero]
                  {| smoothingWindowLength := [Math_fround (of_decimal 2 2)] |}
                  ltac:(vm_compute; lia))).
Defined.

(** X6.  In development builds, when the window of the call has more samples
    than the ring buffer has slots (the depth read, window samples minus 1,
    is at least the capacity), [process] throws a [RangeError] at the first
    sample and leaves the processor and the output channel as they were. *)
Theorem dev_rejects_window_beyond_buffer (sampleRate : number) (g : Global)
        (p : VolumeFilterProcessor) (channel0 : Float32Array) (rest : list Float32Array)
        (outputChannel : Float32Array) (parameters : Parameters) (depth : Z) :
  length channel0 = SAMPLES_PER_QUANTUM ->
  to_Z (sub (windowLengthNumSecondsToSamples sampleRate
               (of_value (typed_get (smoothingWindowLength parameters) 0)))
            (of_Z 1)) = Some depth ->
  rb_length (_sampleSquaresRingBuffer p) <= depth ->
  let r := process true sampleRate g p (channel0 :: rest) outputChannel parameters in
  res_completion r = Throw RangeError
  /\ res_processor r = p
  /\ res_outputChannel r = outputChannel.
Proof.
  intros Hlen Hdepth Hcap. cbv zeta. unfold process. rewrite Hlen.
  change (true && negb (SAMPLES_PER_QUANTUM =? SAMPLES_PER_QUANTUM)%nat) with false.
  cbv iota.
  change (seq 0 SAMPLES_PER_QUANTUM) with (0%nat :: seq 1 127).
  cbn [process_samples]. unfold process_sample, getReverse_number.
  rewrite Hdepth. unfold getReverse. cbn [ls_ring].
  destruct (Z.leb_spec (rb_length (_sampleSquaresRingBuffer p)) depth); [|lia].
  cbn. by destruct p.
Qed.

Lemma dev_rejects_window_beyond_buffer_witness :
  res_completion
    (process true (of_Z 48000) initial_Global scenario_A_processor
       [replicate 128 one] (new_Float32Array 128)
       {| smoothingWindowLength := [Math_fround (of_decimal 3 2)] |})
  = Throw RangeError.
Proof.
  exact (proj1 (dev_rejects_window_beyond_buffer (of_Z 48000) initial_Global
                  scenario_A_processor (replicate 128 one) [] (new_Float32Array 128)
                  {| smoothingWindowLength := [Math_fround (of_decimal 3 2)] |} 1439
                  eq_refl ltac:(vm_compute; reflexivity)
                  ltac:(apply Z.leb_le; vm_compute; reflexivity))).
Defined.

(** X7.  What [process] keeps: the length of the output channel, the
    capacity of the ring buffer, a cursor inside the buffer, the options and
    [keepAlive]; and it leaves every slot of the output channel at or beyond
    the number of samples of the first input channel as it was. *)
Theorem process_keeps_shape (dev : bool) (sampleRate : number) (g : Global)
        (p : VolumeFilterProcessor) (input : list Float32Array)
        (outputChannel : Float32Array) (parameters : Parameters) :
  let r := process dev sampleRate g p input outputChannel parameters in
  length (res_outputChannel r) = length outputChannel
  /\ rb_length (_sampleSquaresRingBuffer (res_processor r))
     = rb_length (_sampleSquaresRingBuffer p)
  /\ (rb_valid (_sampleSquaresRingBuffer p) ->
      rb_valid (_sampleSquaresRingBuffer (res_processor r)))
  /\ _options (res_processor r) = _options p
  /\ keepAlive (res_processor r) = keepAlive p
  /\ (forall i : nat, (length (default [] (head input)) <= i)%nat ->
        res_outputChannel r !! i = outputChannel !! i).
Proof.
  cbv zeta. unfold process. destruct input as [|channel0 input]; [done|].
  destruct (dev && _); [done|].
  match goal with
  | |- context [process_samples ?d ?i ?n ?l ?st] =>
      pose proof (process_samples_keeps d i n l st) as H;
      destruct (process_samples d i n l st) as [st' c]
  end.
  cbv zeta in H. simpl in H. destruct H as (Hlen & Hcap & Hvalid & Hout).
  simpl. split; [exact Hlen|]. split; [exact Hcap|]. split; [exact Hvalid|].
  split; [reflexivity|]. split; [reflexivity|].
  intros i Hi. apply Hout. rewrite elem_of_seq. lia.
Qed.

(** ** [NaN] *)

Section NaNFacts.

Lemma add_NaN_r x : add x NaN = NaN.
Proof. by destruct x. Qed.

Lemma square_sum_NaN (input : list Float32Array) (sampleI : nat) (acc : number) :
  (exists channel : Float32Array, channel ∈ input /\ of_value (channel !! sampleI) = NaN) ->
  foldl (fun (acc : number) (channel : Float32Array) => add acc (square (of_value (channel !! sampleI)))) acc input
  = NaN.
Proof.
  intros (channel & Hin & Hnan). revert acc.
  induction input as [|c input IH]; intros acc; [by apply elem_of_nil in Hin|].
  simpl. apply elem_of_cons in Hin as [<-|Hin].
  - rewrite Hnan. change (square NaN) with NaN. rewrite add_NaN_r.
    clear. induction input as [|c input IH]; [done|]. simpl. apply IH.
  - by apply IH.
Qed.

Variable dev : bool.

Lemma process_sample_NaN_sum input n sampleI st st' :
  ls_sum st = NaN ->
  process_sample dev input n sampleI st = Normal st' ->
  ls_sum st' = NaN /\ ls_output st' = typed_set (ls_output st) (Z.of_nat sampleI) NaN.
Proof.
  intros Hsum. unfold process_sample.
  destruct (getReverse_number _ _ _) as [last|]; [|discriminate].
  intros [= <-]. simpl. by rewrite Hsum.
Qed.

Lemma process_sample_NaN_sample (input : list Float32Array) n (sampleI : nat) st st' :
  (exists channel : Float32Array, channel ∈ input /\ of_value (channel !! sampleI) = NaN) ->
  process_sample dev input n sampleI st = Normal st' ->
  ls_sum st' = NaN.
Proof.
  intros Hnan. unfold process_sample.
  destruct (getReverse_number _ _ _) as [last|]; [|discriminate].
  intros [= <-]. simpl. unfold allChannelsSampleSquareSum.
  rewrite square_sum_NaN by done.
  change (div NaN ?x) with NaN. by rewrite add_NaN_r.
Qed.

Lemma process_samples_NaN_sum input n sampleIs st :
  ls_sum st = NaN ->
  let st' := (process_samples dev input n sampleIs st).1 in
  ls_sum st' = NaN
  /\ forall (i : nat) (v : number),
       ls_output st' !! i = Some v -> ls_output st !! i = Some v \/ v = NaN.
Proof.
  revert st. induction sampleIs as [|j rest IH]; intros st Hsum; simpl; [by eauto|].
  destruct (process_sample dev input n j st) as [st1|] eqn:E; simpl; [|by eauto].
  apply process_sample_NaN_sum in E as [Hsum1 Hout1]; [|done].
  destruct (IH st1 Hsum1) as [IHsum IHout]. split; [done|].
  intros i v Hv. destruct (IHout i v Hv) as [H|H]; [|by right].
  rewrite Hout1 in H. unfold typed_set in H. destruct (0 <=? Z.of_nat j); [|by left].
  apply list_lookup_insert_Some in H as [(_ & <- & _)|[_ H]]; [by right | by left].
Qed.

Lemma process_samples_NaN_sample (input : list Float32Array) n sampleIs st (i : nat) :
  i ∈ sampleIs ->
  (exists channel : Float32Array, channel ∈ input /\ of_value (channel !! i) = NaN) ->
  throws (process_samples dev input n sampleIs st).2 = false ->
  ls_sum (process_samples dev input n sampleIs st).1 = NaN.
Proof.
  intros Hi Hnan. revert st.
  induction sampleIs as [|j rest IH]; intros st; [by apply elem_of_nil in Hi|].
  simpl. destruct (process_sample dev input n j st) as [st1|] eqn:E; simpl; [|done].
  intros Hthrows. apply elem_of_cons in Hi as [<-|Hi].
  - apply process_samples_NaN_sum. by eapply process_sample_NaN_sample.
  - by apply IH.
Qed.

End NaNFacts.

Lemma process_keeps_shape_witness :
  rb_valid
    (_sampleSquaresRingBuffer
       (res_processor
          (process true (of_Z 48000) initial_Global scenario_A_processor
             [replicate 128 one] (new_Float32Array 128)
             {| smoothingWindowLength := [Math_fround (of_decimal 2 2)] |}))).
Proof.
  destruct (process_keeps_shape true (of_Z 48000) initial_Global scenario_A_processor
              [replicate 128 one] (new_Float32Array 128)
              {| smoothingWindowLength := [Math_fround (of_decimal 2 2)] |})
    as (_ & _ & H & _).
  exact (H (rb_valid_new 960 ltac:(lia))).
Defined.

(** X8.  A running sum that is [NaN] never recovers: after any call of
    [process] on such a processor the sum is [NaN] again, and every slot of
    the output channel the call wrote holds [NaN]. *)
Theorem NaN_sum_never_recovers (dev : bool) (sampleRate : number) (g : Global)
        (p : VolumeFilterProcessor) (input : list Float32Array)
        (outputChannel : Float32Array) (parameters : Parameters) :
  _currWindowSquaresSum p = NaN ->
  let r := process dev sampleRate g p input outputChannel parameters in
  _currWindowSquaresSum (res_processor r) = NaN
  /\ forall (i : nat) (v : number),
       res_outputChannel r !! i = Some v -> outputChannel !! i = Some v \/ v = NaN.
Proof.
  intros Hsum. cbv zeta. unfold process.
  destruct input as [|channel0 input]; [by eauto|].
  destruct (dev && _); [by eauto|].
  match goal with
  | |- context [process_samples ?d ?i ?n ?l ?st] =>
      pose proof (process_samples_NaN_sum d i n l st Hsum) as H;
      destruct (process_samples d i n l st) as [st' c]
  end.
  exact H.
Qed.

Lemma NaN_sum_never_recovers_witness :
  _currWindowSquaresSum
    (res_processor
       (process true (of_Z 48000) initial_Global
          {| _sampleSquaresRingBuffer := new_SingleChannelRingBuffer 960;
             _currWindowSquaresSum := NaN;
             _options := _options scenario_A_processor;
             keepAlive := true |}
          [replicate 128 pzero] (new_Float32Array 128)
          {| smoothingWindowLength := [Math_fround (of_decimal 2 2)] |}))
  = NaN.
Proof.
  exact (proj1 (NaN_sum_never_recovers true (of_Z 48000) initial_Global
                  {| _sampleSquaresRingBuffer := new_SingleChannelRingBuffer 960;
                     _currWindowSquaresSum := NaN;
                     _options := _options scenario_A_processor;
                     keepAlive := true |}
                  [replicate 128 pzero] (new_Float32Array 128)
                  {| smoothingWindowLength := [Math_fround (of_decimal 2 2)] |}
                  eq_refl)).
Defined.

(** X9.  In production builds, a channel that is shorter than the first one,
    or that holds a [NaN] sample, at an index below the length of the first
    channel leaves the running sum [NaN] at the end of the call. *)
Theorem bad_sample_makes_sum_NaN (sampleRate : number) (g : Global)
        (p : VolumeFilterProcessor) (channel0 : Float32Array) (rest : list Float32Array)
        (outputChannel : Float32Array) (parameters : Parameters)
        (channel : Float32Array) (i : nat) :
  channel ∈ channel0 :: rest ->
  (i < length channel0)%nat ->
  channel !! i = None \/ channel !! i = Some NaN ->
  let r := process false sampleRate g p (channel0 :: rest) outputChannel parameters in
  _currWindowSquaresSum (res_processor r) = NaN.
Proof.
  intros Hin Hi Hbad. cbv zeta. unfold process. simpl.
  match goal with
  | |- context [process_samples ?d ?inp ?n ?l ?st] =>
      pose proof (process_samples_NaN_sample d inp n l st i) as H;
      destruct (process_samples_production inp n l st) as [st' E]
  end.
  rewrite E in *. simpl. apply H; [apply elem_of_seq; lia | | done].
  exists channel. split; [done|]. by destruct Hbad as [-> | ->].
Qed.

Lemma bad_sample_makes_sum_NaN_witness :
  _currWindowSquaresSum
    (res_processor
       (process false (of_Z 48000) initial_Global scenario_A_processor
          [[one; one]; [one]] [pzero; pzero]
          {| smoothingWindowLength := [Math_fround (of_decimal 2 2)] |}))
  = NaN.
Proof.
  exact (bad_sample_makes_sum_NaN (of_Z 48000) initial_Global scenario_A_processor
           [one; one] [[one]] [pzero; pzero]
           {| smoothingWindowLength := [Math_fround (of_decimal 2 2)] |}
           [one] 1 ltac:(apply elem_of_cons; right; apply elem_of_cons; left; reflexivity)
           ltac:(simpl; lia) ltac:(left; reflexivity)).
Defined.

(** X10.  The result of [process] depends on the ring buffer only through the
    sequence of values it holds: two processors with the same window and the
    same running sum, whatever the position of their cursors, produce the
    same output, the same running sum and the same window, as long as the
    depth read lies inside the buffer. *)
Theorem output_depends_on_window_only (dev : bool) (sampleRate : number) (g : Global)
        (p1 p2 : VolumeFilterProcessor) (input : list Float32Array)
        (outputChannel : Float32Array) (parameters : Parameters) (depth : nat) :
  rb_valid (_sampleSquaresRingBuffer p1) ->
  rb_valid (_sampleSquaresRingBuffer p2) ->
  window (_sampleSquaresRingBuffer p1) = window (_sampleSquaresRingBuffer p2) ->
  _currWindowSquaresSum p1 = _currWindowSquaresSum p2 ->
  to_Z (sub (windowLengthNumSecondsToSamples sampleRate
               (of_value (typed_get (smoothingWindowLength parameters) 0)))
            (of_Z 1)) = Some (Z.of_nat depth) ->
  (depth < length (elements (_sampleSquaresRingBuffer p1)))%nat ->
  let r1 := process dev sampleRate g p1 input outputChannel parameters in
  let r2 := process dev sampleRate g p2 input outputChannel parameters in
  res_outputChannel r1 = res_outputChannel r2
  /\ _currWindowSquaresSum (res_processor r1) = _currWindowSquaresSum (res_processor r2)
  /\ window (_sampleSquaresRingBuffer (res_processor r1))
     = window (_sampleSquaresRingBuffer (res_processor r2)).
Proof.
  intros Hv1 Hv2 Hwin Hsum Hdepth Hd1. cbv zeta.
  assert (Hd2 : (depth < length (elements (_sampleSquaresRingBuffer p2)))%nat).
  { rewrite <- window_length, <- Hwin, window_length. exact Hd1. }
  unfold process. destruct input as [|channel0 input]; [done|].
  destruct (dev && _); [done|].
  set (n := windowLengthNumSecondsToSamples sampleRate _) in *.
  destruct (process_samples_window dev (channel0 :: input) n depth (seq 0 (length channel0))
              {| ls_ring := _sampleSquaresRingBuffer p1;
                 ls_sum := _currWindowSquaresSum p1;
                 ls_output := outputChannel |} Hv1 Hdepth Hd1)
    as (st1 & -> & _ & _ & Habs1).
  destruct (process_samples_window dev (channel0 :: input) n depth (seq 0 (length channel0))
              {| ls_ring := _sampleSquaresRingBuffer p2;
                 ls_sum := _currWindowSquaresSum p2;
                 ls_output := outputChannel |} Hv2 Hdepth Hd2)
    as (st2 & -> & _ & _ & Habs2).
  cbn [ls_ring ls_sum ls_output] in Habs1, Habs2.
  unfold window_state in Habs1 at 2. unfold window_state in Habs2 at 2.
  rewrite Hwin, Hsum, <- Habs2 in Habs1.
  injection Habs1 as Hw Hs Ho. simpl. done.
Qed.

Lemma output_depends_on_window_only_witness :
  let p ring := {| _sampleSquaresRingBuffer := ring; _currWindowSquaresSum := of_Z 6;
                   _options := _options scenario_A_processor; keepAlive := true |} in
  let b1 := push_all [one; of_Z 2; of_Z 3] (new_SingleChannelRingBuffer 3) in
  let b2 := push_all [of_Z 9; one; of_Z 2; of_Z 3] (new_SingleChannelRingBuffer 3) in
  b1 <> b2
  /\ res_outputChannel
       (process false (of_Z 1) initial_Global (p b1) [[one; of_Z 2]] [pzero; pzero]
          {| smoothingWindowLength := [of_Z 3] |})
     = res_outputChannel
         (process false (of_Z 1) initial_Global (p b2) [[one; of_Z 2]] [pzero; pzero]
            {| smoothingWindowLength := [of_Z 3] |}).
Proof.
  split; [vm_compute; discriminate|].
  refine (proj1 (output_depends_on_window_only false (of_Z 1) initial_Global _ _
                   [[one; of_Z 2]] [pzero; pzero]
                   {| smoothingWindowLength := [of_Z 3] |} 2 _ _ _ _ _ _)).
  - apply rb_valid_push_all, rb_valid_new. lia.
  - apply rb_valid_push_all, rb_valid_new. lia.
  - vm_compute. reflexivity.
  - reflexivity.
  - vm_compute. reflexivity.
  - vm_compute. lia.
Defined.

(** ** Silence *)

Section Silence.

Variable input : list Float32Array.
Variable N : nat.
Variable n : Z.
Hypothesis Hn : 1 <= n < 2 ^ 53.
Hypothesis Hchannels : 1 <= Z.of_nat (length input) < 2 ^ 53.
Hypothesis Hsilent : silent_block input N.

Lemma silent_square_sum (j : nat) (channels : list Float32Array) :
  (j < N)%nat -> channels ⊆ input ->
  foldl (fun (acc : number) (channel : Float32Array) =>
           add acc (square (of_value (channel !! j)))) pzero channels = pzero.
Proof.
  intros Hj. induction channels as [|c channels IH]; intros Hsub; [done|].
  cbn [foldl]. destruct (Hsilent c ltac:(apply Hsub; left) j Hj) as (x & -> & [s ->]).
  assert (Hrest : channels ⊆ input) by (intros c' Hc'; apply Hsub; by right).
  destruct s; exact (IH Hrest).
Qed.

Lemma silent_meanSquare (j : nat) :
  (j < N)%nat ->
  div (allChannelsSampleSquareSum input j) (of_Z (Z.of_nat (length input))) = pzero.
Proof.
  intros Hj. unfold allChannelsSampleSquareSum.
  change (of_Z 0) with pzero. rewrite silent_square_sum by done.
  destruct (Z.of_nat (length input)) as [|c|c] eqn:E; [lia| |lia].
  by rewrite of_Z_pos by lia.
Qed.

Lemma silent_window_sample (j : nat) (st : WindowState) :
  (j < N)%nat -> silent n st ->
  let st' := window_sample input (of_Z n) (Z.to_nat (n - 1)) j st in
  silent n st' /\ ws_output st' = <[j := pzero]> (ws_output st).
Proof.
  intros Hj (Hsum & Hlen & Hwin). cbv zeta. unfold window_sample.
  rewrite silent_meanSquare, Hsum by done.
  destruct (Hwin (Z.to_nat (n - 1)) ltac:(lia)) as (x & -> & [s ->]).
  set (sum := Math_max _ _).
  assert (E : sum = pzero) by (unfold sum; destruct s; reflexivity).
  rewrite E. clear sum E.
  assert (Hdiv : div pzero (of_Z n) = pzero).
  { destruct n as [|z|z]; [lia| |lia]. by rewrite of_Z_pos by lia. }
  rewrite Hdiv. unfold silent. cbn [ws_sum ws_window ws_output].
  split; [split; [reflexivity|split]|].
  - simpl. rewrite length_take. lia.
  - intros [|d] Hd; [exists pzero; split; [reflexivity | by exists false]|].
    change ((Math_fround pzero :: take (length (ws_window st) - 1) (ws_window st)) !! S d)
      with (take (length (ws_window st) - 1) (ws_window st) !! d).
    rewrite lookup_take_lt by lia. apply Hwin. lia.
  - unfold typed_set. destruct (Z.leb_spec 0 (Z.of_nat j)); [|lia].
    by rewrite Nat2Z.id.
Qed.

Lemma silent_window_samples (j : nat) (st : WindowState) :
  (j <= N)%nat -> silent n st ->
  let st' := window_samples input (of_Z n) (Z.to_nat (n - 1)) (seq 0 j) st in
  silent n st'
  /\ length (ws_output st') = length (ws_output st)
  /\ forall i : nat, (i < j)%nat -> (i < length (ws_output st))%nat ->
                     ws_output st' !! i = Some pzero.
Proof.
  intros Hj Hst. cbv zeta. induction j as [|j IH].
  - simpl. split; [exact Hst|]. split; [reflexivity|]. intros; lia.
  - rewrite seq_S. unfold window_samples in *. rewrite foldl_snoc.
    destruct (IH ltac:(lia)) as (Hsteady & Hlen & Hout).
    set (stj := foldl _ st (seq 0 j)) in *.
    destruct (silent_window_sample j stj ltac:(lia) Hsteady) as (Hsteady' & Hout').
    split; [exact Hsteady'|]. cbn [Nat.add]. rewrite Hout', length_insert.
    split; [done|]. intros i Hi Hilen.
    destruct (decide (i = j)) as [->|Hne].
    + apply list_lookup_insert_eq. lia.
    + rewrite list_lookup_insert_ne by done. apply Hout; lia.
Qed.

End Silence.

Lemma silent_block_zeros (signs : list bool) (N : nat) :
  silent_block ((fun s => replicate N (S754_zero s)) <$> signs) N.
Proof.
  intros channel Hin i Hi. apply list_elem_of_fmap in Hin as (s & -> & _).
  exists (S754_zero s). split; [by apply lookup_replicate_2 | by exists s].
Qed.

(** X11.  Silence in, silence out: with a window of zeros and a running sum
    of 0, a block whose channels all hold zeros (of either sign) gives an
    output of [+0] at every sample and leaves the running sum at [+0], for
    any number of channels and any window of [1 <= n < 2^53] samples that
    fits the buffer. *)
Theorem silence_gives_zero_output (dev : bool) (sampleRate : number) (g : Global)
        (p : VolumeFilterProcessor) (channel0 : Float32Array) (rest : list Float32Array)
        (outputChannel : Float32Array) (parameters : Parameters) (n : Z) :
  rb_valid (_sampleSquaresRingBuffer p) ->
  1 <= n <= rb_length (_sampleSquaresRingBuffer p) -> n < 2 ^ 53 ->
  windowLengthNumSecondsToSamples sampleRate
    (of_value (typed_get (smoothingWindowLength parameters) 0)) = of_Z n ->
  (forall d : nat, Z.of_nat d < n ->
     exists x, window (_sampleSquaresRingBuffer p) !! d = Some x /\ is_zero x) ->
  _currWindowSquaresSum p = pzero ->
  silent_block (channel0 :: rest) (length channel0) ->
  Z.of_nat (length (channel0 :: rest)) < 2 ^ 53 ->
  length outputChannel = length channel0 ->
  (dev = true -> length channel0 = SAMPLES_PER_QUANTUM) ->
  let r := process dev sampleRate g p (channel0 :: rest) outputChannel parameters in
  res_completion r = Normal (keepAlive p)
  /\ res_outputChannel r = replicate (length channel0) pzero
  /\ _currWindowSquaresSum (res_processor r) = pzero.
Proof.
  intros Hvalid Hnk Hn53 Hsamples Hwin Hsum Hblock Hchannels Hout Hdev r.
  unfold r, process. rewrite Hsamples.
  assert (Hcheck : dev && negb (length channel0 =? SAMPLES_PER_QUANTUM)%nat = false).
  { destruct dev; [|done]. rewrite (Hdev eq_refl). reflexivity. }
  rewrite Hcheck.
  assert (Hdepth : to_Z (sub (of_Z n) (of_Z 1)) = Some (Z.of_nat (Z.to_nat (n - 1)))).
  { rewrite sub_of_Z, to_Z_of_Z by lia. f_equal. lia. }
  destruct (process_samples_window dev (channel0 :: rest) (of_Z n) (Z.to_nat (n - 1))
              (seq 0 (length channel0))
              {| ls_ring := _sampleSquaresRingBuffer p;
                 ls_sum := _currWindowSquaresSum p;
                 ls_output := outputChannel |} Hvalid Hdepth)
    as (st' & -> & _ & _ & Habs).
  { cbn [ls_ring]. unfold rb_length in Hnk. lia. }
  cbn [ls_ring ls_sum ls_output] in Habs.
  destruct (silent_window_samples (channel0 :: rest) (length channel0) n ltac:(lia)
              ltac:(simpl length in *; lia) Hblock (length channel0)
              (window_state (_sampleSquaresRingBuffer p) (_currWindowSquaresSum p)
                            outputChannel) ltac:(lia))
    as ((Hsum' & _ & _) & Hlenout & Hzeros).
  { unfold silent, window_state. cbn [ws_sum ws_window]. split; [exact Hsum|]. split.
    - rewrite window_length. unfold rb_length in Hnk. lia.
    - intros d Hd. apply Hwin. lia. }
  rewrite <- Habs in Hsum', Hlenout, Hzeros.
  unfold window_state in Hsum', Hlenout, Hzeros.
  cbn [ws_sum ws_window ws_output] in Hsum', Hlenout, Hzeros.
  cbv beta iota zeta.
  unfold res_completion, res_outputChannel, res_processor.
  cbn [_currWindowSquaresSum]. split; [reflexivity|]. split; [|exact Hsum'].
  apply list_eq. intros i. destruct (decide (i < length channel0)%nat).
  - rewrite lookup_replicate_2 by done. apply Hzeros; lia.
  - rewrite !lookup_ge_None_2; [done | rewrite length_replicate; lia | lia].
Qed.

Lemma silence_gives_zero_output_witness :
  res_outputChannel
    (process true (of_Z 48000) initial_Global scenario_A_processor
       [replicate 128 pzero; replicate 128 (S754_zero true)] (new_Float32Array 128)
       {| smoothingWindowLength := [Math_fround (of_decimal 2 2)] |})
  = replicate 128 pzero.
Proof.
  assert (Hsamples : windowLengthNumSecondsToSamples (of_Z 48000)
                       (of_value (typed_get [Math_fround (of_decimal 2 2)] 0)) = of_Z 960)
    by (vm_compute; reflexivity).
  assert (Hwindow : window (_sampleSquaresRingBuffer scenario_A_processor)
                    = replicate 960 pzero)
    by (vm_compute; reflexivity).
  pose proof (silence_gives_zero_output true (of_Z 48000) initial_Global
                scenario_A_processor (replicate 128 pzero) [replicate 128 (S754_zero true)]
                (new_Float32Array 128)
                {| smoothingWindowLength := [Math_fround (of_decimal 2 2)] |} 960
                (rb_valid_new 960 ltac:(lia))
                ltac:(split; apply Z.leb_le; vm_compute; reflexivity)
                ltac:(lia) Hsamples) as H.
  cbv zeta in H. apply H.
  - intros d Hd. exists pzero. split; [|by exists false].
    rewrite Hwindow. apply lookup_replicate_2. lia.
  - reflexivity.
  - exact (silent_block_zeros [false; true] 128).
  - simpl. lia.
  - reflexivity.
  - reflexivity.
Defined.

Lemma strict_ne_of_Z n : 1 <= n < 2 ^ 53 -> strict_ne (of_Z n) (of_Z n) = false.
Proof.
  intros Hn. destruct n as [|z|z]; [lia| |lia].
  rewrite of_Z_pos by lia. unfold strict_ne, SFeqb, SFcompare.
  by rewrite Z.compare_refl, Pos.compare_cont_refl.
Qed.

(** X12.  When the window of [VolumeFilterNode] is [n >= 1] samples, the
    typed array of [n] elements has at most 2^53 - 1 bytes and the host
    allocates it, construction returns a processor; every processor it
    returns has a ring buffer of exactly [n] slots with the cursor inside;
    and every call of [process] on such a processor, with a parameter that
    gives the same number of samples and a block of 128 samples (or no
    channel), returns normally, logs nothing, also in development builds,
    and leaves the processor in such a state again. *)
Theorem node_processor_runs (sampleRate maxLength length0 : number)
        (allocates : nat -> bool) (keepAlive0 : bool) (n : Z) :
  1 <= n < 2 ^ 53 ->
  windowLengthNumSecondsToSamples sampleRate length0 = of_Z n ->
  (4 * n <= 2 ^ 53 - 1 -> allocates (Z.to_nat n) = true ->
   exists p, new_VolumeFilterNode sampleRate allocates maxLength length0 keepAlive0
             = Normal p)
  /\ (forall p, new_VolumeFilterNode sampleRate allocates maxLength length0 keepAlive0
                = Normal p ->
                ready sampleRate n p)
  /\ forall (dev : bool) (g : Global) (p : VolumeFilterProcessor)
            (input : list Float32Array) (outputChannel : Float32Array)
            (parameters : Parameters),
       ready sampleRate n p ->
       windowLengthNumSecondsToSamples sampleRate
         (of_value (typed_get (smoothingWindowLength parameters) 0)) = of_Z n ->
       (forall channel0, head input = Some channel0 ->
                         length channel0 = SAMPLES_PER_QUANTUM) ->
       let r := process dev sampleRate g p input outputChannel parameters in
       res_completion r = Normal (keepAlive p)
       /\ res_global r = g
       /\ ready sampleRate n (res_processor r).
Proof.
  intros Hn Hsamples.
  assert (Hnew : new_VolumeFilterNode sampleRate allocates maxLength length0 keepAlive0
                 = match construct_Float32Array allocates (of_Z n) with
                   | Throw e => Throw e
                   | Normal a =>
                       Normal {| _sampleSquaresRingBuffer :=
                                   {| elements := a;
                                      _lastSampleI := Z.of_nat (length a) - 1 |};
                                 _currWindowSquaresSum := of_Z 0;
                                 _options := {| maxChannels := DEFAULT_MAX_NUM_CHANNELS;
                                                maxSmoothingWindowLength := length0 |};
                                 keepAlive := keepAlive0 |}
                   end).
  { unfold new_VolumeFilterNode, new_VolumeFilterProcessor,
      construct_SingleChannelRingBuffer.
    cbn [VolumeFilterNode_options processorOptions parameterData_smoothingWindowLength
           maxSmoothingWindowLength mbind option_bind default].
    rewrite Hsamples. by destruct (construct_Float32Array allocates (of_Z n)). }
  rewrite Hnew. unfold construct_Float32Array. rewrite ToIndex_of_Z by done.
  split; [|split].
  - intros Hbytes Ha. rewrite Ha, Z2Nat.id by lia.
    destruct (Z.leb_spec (4 * n) (2 ^ 53 - 1)); [|lia]. simpl. by eexists.
  - intros p. destruct (_ && _); [|discriminate]. intros [= <-].
    unfold ready, rb_valid, rb_length.
    cbn [_sampleSquaresRingBuffer elements _lastSampleI _options maxSmoothingWindowLength].
    rewrite length_new_Float32Array. split; [lia|]. split; [lia | done].
  - intros dev g p input outputChannel parameters (Hvalid & Hcap & Hmax) Hparam Hblock.
    set (r := process dev sampleRate g p input outputChannel parameters).
    assert (Hg : res_global r = g).
    { unfold r. rewrite res_global_process. unfold dev_check.
      rewrite Hparam, Hmax, strict_ne_of_Z by done. by rewrite andb_false_r. }
    pose proof (process_keeps_ring sampleRate dev g p input outputChannel parameters)
      as (Hcap' & Hvalid' & Hopt'). fold r in Hcap', Hvalid', Hopt'.
    split; [|split; [exact Hg|]].
    + unfold r, process. destruct input as [|channel0 input]; [done|].
      rewrite (Hblock channel0 eq_refl), Nat.eqb_refl, andb_false_r. rewrite Hparam.
      assert (Hdepth : to_Z (sub (of_Z n) (of_Z 1)) = Some (Z.of_nat (Z.to_nat (n - 1)))).
      { rewrite sub_of_Z, to_Z_of_Z by lia. f_equal. lia. }
      destruct (process_samples_window dev (channel0 :: input) (of_Z n) (Z.to_nat (n - 1))
                  (seq 0 SAMPLES_PER_QUANTUM)
                  {| ls_ring := _sampleSquaresRingBuffer p;
                     ls_sum := _currWindowSquaresSum p;
                     ls_output := outputChannel |} Hvalid Hdepth)
        as (st' & -> & _); [|done].
      cbn [ls_ring]. unfold rb_length in Hcap. lia.
    + unfold ready. rewrite Hcap', Hopt'. auto.
Qed.

Lemma node_processor_runs_witness :
  exists p, new_VolumeFilterNode (of_Z 48000) (host_with_limit (2 ^ 32))
              (of_decimal 2 2) (of_decimal 2 2) true = Normal p
            /\ ready (of_Z 48000) 960 p.
Proof.
  pose proof (node_processor_runs (of_Z 48000) (of_decimal 2 2) (of_decimal 2 2)
                (host_with_limit (2 ^ 32)) true 960
                ltac:(lia) ltac:(vm_compute; reflexivity)) as (Hnew & Hready & _).
  destruct (Hnew ltac:(lia) ltac:(vm_compute; reflexivity)) as (p & Hp).
  exists p. split; [exact Hp | exact (Hready p Hp)].
Defined.

(** ** Listeners of setting changes *)

Section Listeners.

Variable production : bool.

Lemma removeListener_subseteq w registered : removeListener w registered ⊆ registered.
Proof. intros x Hx. by apply list_elem_of_filter in Hx as [_ ?]. Qed.

Lemma wrappers_fresh_initial : wrappers_fresh initial_ListenerState.
Proof.
  split; [constructor|]. split.
  - intros w Hw. by apply elem_of_nil in Hw.
  - intros l w Hl. simpl in Hl. by rewrite lookup_empty in Hl.
Qed.

Lemma wrappers_fresh_add l st :
  wrappers_fresh st -> wrappers_fresh (addOnChangedListener l st).
Proof.
  intros (Hnodup & Hreg & Hmap). unfold wrappers_fresh. simpl. split; [|split].
  - rewrite fmap_app. apply NoDup_app. split; [done|]. split; [|by apply NoDup_singleton].
    intros i Hi Hi'. apply list_elem_of_fmap in Hi as (w & -> & Hw).
    apply list_elem_of_singleton in Hi'. specialize (Hreg w Hw). simpl in Hi'. lia.
  - intros w Hw. apply elem_of_app in Hw as [Hw|Hw].
    + specialize (Hreg w Hw). lia.
    + apply list_elem_of_singleton in Hw as ->. simpl. lia.
  - intros l' w Hl'. destruct (decide (l = l')) as [<-|Hne].
    + rewrite lookup_insert_eq in Hl'. injection Hl' as <-. simpl. split; [lia|done].
    + rewrite lookup_insert_ne in Hl' by done.
      destruct (Hmap l' w Hl') as [? ?]. split; [lia|done].
Qed.

Lemma wrappers_fresh_remove l st :
  wrappers_fresh st -> wrappers_fresh (removeOnChangedListener production l st).
Proof.
  intros (Hnodup & Hreg & Hmap). unfold removeOnChangedListener.
  destruct (srcListenerToWrapperListener st !! l) as [w|] eqn:E; [|done].
  split; [|split]; simpl; [| |done].
  - unfold removeListener. clear -Hnodup.
    induction (onChanged st) as [|x xs IH]; [constructor|].
    rewrite fmap_cons in Hnodup. apply NoDup_cons in Hnodup as [Hx Hxs].
    rewrite filter_cons. destruct (decide (w_id x <> w_id w)); [|by apply IH].
    rewrite fmap_cons. apply NoDup_cons. split; [|by apply IH].
    intros Hin. apply Hx. apply list_elem_of_fmap in Hin as (y & -> & Hy).
    apply list_elem_of_fmap. exists y. split; [done|].
    by apply list_elem_of_filter in Hy as [_ ?].
  - intros x Hx. apply Hreg. by apply removeListener_subseteq in Hx.
Qed.

Lemma wrappers_fresh_run_ops ops : wrappers_fresh (run_ops production ops).
Proof.
  unfold run_ops. induction ops as [|op ops IH] using rev_ind.
  - apply wrappers_fresh_initial.
  - rewrite foldl_snoc. destruct op; [by apply wrappers_fresh_add|].
    by apply wrappers_fresh_remove.
Qed.

End Listeners.

Section ListenerProperties.

Variable production : bool.

Lemma removeListener_fresh registered w (bound : nat) :
  (forall x, x ∈ registered -> (w_id x < bound)%nat) -> (bound <= w_id w)%nat ->
  removeListener w registered = registered.
Proof.
  intros Hreg Hw. unfold removeListener.
  induction registered as [|x xs IH]; [done|].
  rewrite filter_cons_True.
  - f_equal. apply IH. intros y Hy. apply Hreg. by right.
  - specialize (Hreg x ltac:(left)). lia.
Qed.

Lemma removeListener_app w l1 l2 :
  removeListener w (l1 ++ l2) = removeListener w l1 ++ removeListener w l2.
Proof. apply filter_app. Qed.

Lemma removeListener_self w : removeListener w [w] = [].
Proof. unfold removeListener. rewrite filter_cons. by destruct (decide _). Qed.

Lemma removeListener_other w x : w_id x <> w_id w -> removeListener w [x] = [x].
Proof. intros Hne. unfold removeListener. rewrite filter_cons. by destruct (decide _). Qed.

Lemma fire_local changes st :
  fire changes "local" st = (fun w => (w_listener w, changes)) <$> onChanged st.
Proof.
  unfold fire. induction (onChanged st) as [|w ws IH]; [done|].
  rewrite bind_cons, IH. reflexivity.
Qed.

End ListenerProperties.

(** X14.  A listener attached with [addOnChangedListener] is never called for
    a change of a storage area other than ['local'], and for a change of
    ['local'] it is called once for each of its wrappers that is
    registered. *)
Theorem listeners_see_local_changes_only (changes : MyStorageChanges) (areaName : string)
        (listener : nat) (st : ListenerState) :
  (areaName <> "local"%string -> fire changes areaName st = [])
  /\ length (filter (fun call => call.1 = listener) (fire changes "local" st))
     = attached listener st.
Proof.
  split.
  - intros Harea. unfold fire, call_wrapper.
    destruct (String.eqb_spec areaName "local"); [done|].
    induction (onChanged st) as [|w ws IH]; [done|]. by rewrite bind_cons, IH.
  - rewrite fire_local. unfold attached.
    induction (onChanged st) as [|w ws IH]; [done|].
    rewrite fmap_cons, !filter_cons. simpl.
    destruct (decide (w_listener w = listener)); simpl; by rewrite IH.
Qed.

Lemma listeners_see_local_changes_only_witness :
  fire ∅ "sync" (run_ops true [OpAdd 7]) = [].
Proof.
  exact (proj1 (listeners_see_local_changes_only ∅ "sync" 7 (run_ops true [OpAdd 7]))
               ltac:(discriminate)).
Defined.

(** X15.  Adding a listener and removing it again leaves the registered
    callbacks as they were and warns about nothing; removing it once more
    changes nothing and does not warn either, since the wrapper stays in the
    map. *)
Theorem add_then_remove_detaches (production : bool) (listener : nat) (st : ListenerState) :
  wrappers_fresh st ->
  let st1 := removeOnChangedListener production listener
               (addOnChangedListener listener st) in
  onChanged st1 = onChanged st
  /\ warnings st1 = warnings st
  /\ removeOnChangedListener production listener st1 = st1.
Proof.
  intros (Hnodup & Hreg & Hmap). cbv zeta.
  set (w := {| w_id := nextWrapper st; w_listener := listener |}).
  assert (Hremoved : removeListener w (onChanged st ++ [w]) = onChanged st).
  { rewrite removeListener_app, removeListener_self, app_nil_r.
    apply (removeListener_fresh (onChanged st) _ (nextWrapper st)); [done | simpl; lia]. }
  assert (Hst1 : removeOnChangedListener production listener
                   (addOnChangedListener listener st)
                 = {| srcListenerToWrapperListener :=
                        <[listener := w]> (srcListenerToWrapperListener st);
                      onChanged := onChanged st;
                      nextWrapper := S (nextWrapper st);
                      warnings := warnings st |}).
  { unfold removeOnChangedListener, addOnChangedListener.
    cbn [srcListenerToWrapperListener onChanged nextWrapper warnings].
    rewrite lookup_insert_eq. f_equal. exact Hremoved. }
  rewrite Hst1. cbn [onChanged warnings]. split; [done|]. split; [done|].
  unfold removeOnChangedListener. cbn [srcListenerToWrapperListener].
  rewrite lookup_insert_eq. cbn [onChanged nextWrapper warnings].
  by rewrite (removeListener_fresh (onChanged st) w (nextWrapper st)) by (done || simpl; lia).
Qed.

Lemma add_then_remove_detaches_witness :
  fire ∅ "local" (run_ops false [OpAdd 3; OpAdd 7; OpRemove 7]) = [(3%nat, ∅)].
Proof.
  destruct (add_then_remove_detaches false 7 (run_ops false [OpAdd 3])
              (wrappers_fresh_run_ops false [OpAdd 3])) as (H & _).
  rewrite fire_local.
  change (onChanged (run_ops false [OpAdd 3; OpAdd 7; OpRemove 7]))
    with (onChanged (removeOnChangedListener false 7
                       (addOnChangedListener 7 (run_ops false [OpAdd 3])))).
  rewrite H. reflexivity.
Defined.

(** X16.  Adding the same listener twice and removing it leaves the wrapper
    of the first addition registered: the listener is attached once more
    than before, and removing it again changes nothing. *)
Theorem adding_twice_leaves_a_wrapper (production : bool) (listener : nat)
        (st : ListenerState) :
  wrappers_fresh st ->
  let st2 := removeOnChangedListener production listener
               (addOnChangedListener listener (addOnChangedListener listener st)) in
  onChanged st2 = onChanged st ++ [{| w_id := nextWrapper st; w_listener := listener |}]
  /\ attached listener st2 = S (attached listener st)
  /\ removeOnChangedListener production listener st2 = st2.
Proof.
  intros (Hnodup & Hreg & Hmap). cbv zeta.
  set (w1 := {| w_id := nextWrapper st; w_listener := listener |}).
  set (w2 := {| w_id := S (nextWrapper st); w_listener := listener |}).
  assert (Hkeep : removeListener w2 (onChanged st ++ [w1]) = onChanged st ++ [w1]).
  { apply (removeListener_fresh _ w2 (S (nextWrapper st))); [|simpl; lia].
    intros x Hx. apply elem_of_app in Hx as [Hx|Hx].
    - specialize (Hreg x Hx). lia.
    - apply list_elem_of_singleton in Hx as ->. simpl. lia. }
  assert (Hst2 : removeOnChangedListener production listener
                   (addOnChangedListener listener (addOnChangedListener listener st))
                 = {| srcListenerToWrapperListener :=
                        <[listener := w2]>
                          (<[listener := w1]> (srcListenerToWrapperListener st));
                      onChanged := onChanged st ++ [w1];
                      nextWrapper := S (S (nextWrapper st));
                      warnings := warnings st |}).
  { unfold removeOnChangedListener, addOnChangedListener.
    cbn [srcListenerToWrapperListener onChanged nextWrapper warnings].
    rewrite lookup_insert_eq. f_equal. fold w1 w2.
    rewrite removeListener_app, removeListener_self, app_nil_r. exact Hkeep. }
  rewrite Hst2. cbn [onChanged]. split; [done|]. split.
  - unfold attached. cbn [onChanged]. rewrite filter_app, length_app.
    rewrite filter_cons, filter_nil. destruct (decide _); [simpl; lia | done].
  - unfold removeOnChangedListener. cbn [srcListenerToWrapperListener].
    rewrite lookup_insert_eq. cbn [onChanged nextWrapper warnings]. by rewrite Hkeep.
Qed.

Lemma adding_twice_leaves_a_wrapper_witness :
  fire ∅ "local" (run_ops false [OpAdd 7; OpAdd 7; OpRemove 7; OpRemove 7]) = [(7%nat, ∅)].
Proof.
  destruct (adding_twice_leaves_a_wrapper false 7 (run_ops false [])
              (wrappers_fresh_run_ops false [])) as (H1 & _ & H2).
  rewrite fire_local.
  change (run_ops false [OpAdd 7; OpAdd 7; OpRemove 7; OpRemove 7])
    with (removeOnChangedListener false 7
            (removeOnChangedListener false 7
               (addOnChangedListener 7 (addOnChangedListener 7 (run_ops false []))))).
  rewrite H2, H1. reflexivity.
Defined.

Lemma map_run_ops_never_added production ops listener :
  OpAdd listener ∉ ops ->
  srcListenerToWrapperListener (run_ops production ops) !! listener = None.
Proof.
  unfold run_ops. induction ops as [|op ops IH] using rev_ind; intros Hops.
  - apply lookup_empty.
  - rewrite foldl_snoc. apply not_elem_of_app in Hops as [Hops Hop].
    specialize (IH Hops). destruct op as [l|l]; simpl.
    + rewrite lookup_insert_ne; [done|]. intros ->. apply Hop. by left.
    + unfold removeOnChangedListener. by destruct (_ !! l).
Qed.

(** X17.  Removing a listener that was never added changes neither the
    registered callbacks nor the map, and counts one warning exactly when the
    build is not a production build. *)
Theorem removing_a_listener_never_added (production : bool) (ops : list ListenerOp)
        (listener : nat) :
  OpAdd listener ∉ ops ->
  let st := run_ops production ops in
  let st' := removeOnChangedListener production listener st in
  onChanged st' = onChanged st
  /\ srcListenerToWrapperListener st' = srcListenerToWrapperListener st
  /\ warnings st' = if production then warnings st else S (warnings st).
Proof.
  intros Hops. cbv zeta. unfold removeOnChangedListener.
  by rewrite map_run_ops_never_added.
Qed.

Lemma removing_a_listener_never_added_witness :
  warnings (removeOnChangedListener false 5 (run_ops false [OpAdd 3])) = 1%nat.
Proof.
  exact (proj2 (proj2 (removing_a_listener_never_added false [OpAdd 3] 5
                         ltac:(intros H; apply list_elem_of_singleton in H; discriminate)))).
Defined.

